(** * SecurityScheme (openapi_schema_pydantic.v3.v3_1_0.security_scheme)

    A shallow embedding of the pydantic model [SecurityScheme]: the field
    table and [Config] declared in [security_scheme.py], interpreted by the
    construction loop of pydantic ([validate_model]) and by [BaseModel.dict].

    Input data is JSON-like: what a parsed OpenAPI document hands to
    [SecurityScheme.parse_obj(data)]. *)

From Stdlib Require Import ZArith String Ascii List.
From stdpp Require Import base option list strings pretty gmap sorting.

#[local] Set Warnings "-register-all".

(** ** Python values *)

(** JSON-like Python data.  A [str] is carried by its UTF-8 encoding, one
    [ascii] for each byte.  A float is carried by the text [str()] prints
    for it, the only thing the validators below ever ask of a float.  A
    [dict] keeps its insertion order, which [dict(iterable)] can observe. *)
Inductive pyvalue : Type :=
| PyNone
| PyBool (b : bool)
| PyInt (z : Z)
| PyFloat (repr : string)
| PyStr (s : string)
| PyList (l : list pyvalue)
| PyDict (d : list (string * pyvalue)).

(** ** pydantic: errors *)

(** The errors a [ValidationError] carries, each with the location (the
    alias of the field, or the unknown key) it is reported at.  The spec
    calls [MissingError] at a field [MissingRequiredField(field)] and the
    error of a validator at a field [InvalidFieldValue(field, reason)]. *)
Inductive PydanticError : Type :=
| MissingError            (* value_error.missing *)
| NoneIsNotAllowedError   (* type_error.none.not_allowed *)
| StrError                (* type_error.str *)
| IntMaxStrDigitsError    (* ValueError: Exceeds the limit for integer string conversion *)
| DictError               (* type_error.dict *)
| UrlError                (* value_error.url.* *)
| ExtraError              (* value_error.extra *)
| KeywordTypeError        (* TypeError: keywords must be strings *)
| MultipleValuesTypeError (* TypeError: got multiple values for argument *)
| NestedValidationError.  (* the ValidationError of a nested model *)

Record ErrorWrapper : Type := mkError { exc : PydanticError; loc : string }.

(** What a call of a model class raises: pydantic's [ValidationError] with
    the errors of the fields, or the [TypeError] Python raises for keywords
    that cannot be bound to the parameters of [__init__]. *)
Inductive Raised : Type :=
| ValidationError (errs : list ErrorWrapper)
| TypeError.

(** ** pydantic: configuration *)

Module Extra.
Inductive t : Type := allow | ignore | forbid.
End Extra.

Record BaseConfig : Type := mkConfig {
  extra : Extra.t;
  allow_population_by_field_name : bool
}.

(** ** pydantic: fields *)

Inductive FieldType : Type :=
| Str                          (* str *)
| AnyUrlT                      (* pydantic.AnyUrl *)
| OAuthFlowsT                  (* the nested model OAuthFlows *)
| Union (a b : FieldType).     (* typing.Union[a, b] *)

Record ModelField : Type := mkField {
  name : string;
  alias : string;
  alt_alias : bool;        (* an alias was given explicitly *)
  required : bool;
  allow_none : bool;
  default : pyvalue;
  type_ : FieldType
}.

(** [x: T = ...] *)
Definition required_field (n : string) (t : FieldType) : ModelField :=
  mkField n n false true false PyNone t.

(** [x: Optional[T] = None] *)
Definition optional_field (n : string) (t : FieldType) : ModelField :=
  mkField n n false false true PyNone t.

(** [x: ... = Field(alias=a, ...)] *)
Definition with_alias (a : string) (f : ModelField) : ModelField :=
  mkField (name f) a true (required f) (allow_none f) (default f) (type_ f).

(** ** Validators on plain data *)

(** Whether a value can be a dictionary key. *)
Definition hashable (v : pyvalue) : bool :=
  match v with
  | PyList _ | PyDict _ => false
  | _ => true
  end.

(** A byte that continues a character of more than one byte in UTF-8
    ([10xxxxxx]). *)
Definition continuation (c : ascii) : bool :=
  match c with
  | Ascii _ _ _ _ _ _ false true => true
  | _ => false
  end.

(** The characters of a [str], which is what iterating over it yields: a
    character is a byte that is no continuation, with the continuation
    bytes that follow it. *)
Fixpoint chars (s : string) : list string :=
  match s with
  | EmptyString => []
  | String c s' =>
      let continued :=
        match s' with
        | String c' _ => continuation c'
        | EmptyString => false
        end in
      match chars s' with
      | ch :: chs =>
          if continued then String c ch :: chs
          else String c EmptyString :: ch :: chs
      | [] => [String c EmptyString]
      end
  end.

(** The two items of an iterable that yields exactly two: the elements of
    a list, the characters of a [str], the keys of a [dict]. *)
Definition two_items (v : pyvalue) : option (pyvalue * pyvalue) :=
  match v with
  | PyList [a; b] => Some (a, b)
  | PyStr s =>
      match chars s with
      | [a; b] => Some (PyStr a, PyStr b)
      | _ => None
      end
  | PyDict [(a, _); (b, _)] => Some (PyStr a, PyStr b)
  | _ => None
  end.

(** [dict(value)] for a value that is not a [dict]: [None] stands for the
    [TypeError] or [ValueError] Python raises. *)
Definition dict_of_iterable (v : pyvalue) : option (list (pyvalue * pyvalue)) :=
  match v with
  | PyStr EmptyString => Some []
  | PyList l =>
      mapM (λ e, p ← two_items e; if hashable p.1 then Some p else None) l
  | _ => None
  end.

(** [d[k] = v] on an insertion-ordered dictionary. *)
Fixpoint setitem (k : string) (v : pyvalue) (d : list (string * pyvalue))
  : list (string * pyvalue) :=
  match d with
  | [] => [(k, v)]
  | (k', v') :: d' =>
      if decide (k = k') then (k, v) :: d' else (k', v') :: setitem k v d'
  end.

(** The keyword arguments a dictionary is unpacked to: every key must be a
    [str]. *)
Fixpoint keywords (kvs : list (pyvalue * pyvalue)) (acc : list (string * pyvalue))
  : option (list (string * pyvalue)) :=
  match kvs with
  | [] => Some acc
  | (PyStr k, v) :: kvs' => keywords kvs' (setitem k v acc)
  | _ => None
  end.

(** The order [sorted()] puts strings in. *)
Definition string_le (a b : string) : Prop := String.leb a b = true.

#[global] Instance string_le_dec : RelDecision string_le :=
  λ a b, decide (String.leb a b = true).

(** ** The configuration of the class *)

(** Modelled from the spec: [DefaultConfig] (module [._config]) is not among
    the sources.  The spec knows no error for an unknown key and has the
    output hold the declared fields only, so unknown keys are ignored
    ([Extra.ignore], which is also what pydantic's [BaseConfig] has). *)
Definition DefaultConfig : BaseConfig := mkConfig Extra.ignore false.

(** [class Config(DefaultConfig): allow_population_by_field_name = True] *)
Definition Config : BaseConfig := mkConfig (extra DefaultConfig) true.

(** The fields of [class SecurityScheme(BaseModel)], in declaration order. *)
Definition fields : list ModelField :=
  [ required_field "type" Str;
    optional_field "description" Str;
    optional_field "name" Str;
    with_alias "in" (optional_field "security_scheme_in" Str);
    optional_field "scheme" Str;
    optional_field "bearerFormat" Str;
    optional_field "flows" OAuthFlowsT;
    optional_field "openIdConnectUrl" (Union AnyUrlT Str) ].

(** The values the docstring of [type] lists as valid. *)
Definition type_values : list string :=
  ["apiKey"; "http"; "mutualTLS"; "oauth2"; "openIdConnect"].

(** The values the docstring of [security_scheme_in] lists as valid. *)
Definition in_values : list string := ["query"; "header"; "cookie"].

(** [Config.schema_extra["examples"]] *)
Definition example_http_basic : gmap string pyvalue :=
  {[ "type" := PyStr "http"; "scheme" := PyStr "basic" ]}.

Definition example_apiKey : gmap string pyvalue :=
  {[ "type" := PyStr "apiKey"; "name" := PyStr "api_key"; "in" := PyStr "header" ]}.

Definition example_http_bearer : gmap string pyvalue :=
  {[ "type" := PyStr "http"; "scheme" := PyStr "bearer"; "bearerFormat" := PyStr "JWT" ]}.

Definition example_oauth2 : gmap string pyvalue :=
  {[ "type" := PyStr "oauth2";
     "flows" := PyDict
       [ ("implicit", PyDict
            [ ("authorizationUrl", PyStr "https://example.com/api/oauth/dialog");
              ("scopes", PyDict [ ("write:pets", PyStr "modify pets in your account");
                                  ("read:pets", PyStr "read your pets") ]) ]) ] ]}.

Definition example_openIdConnect : gmap string pyvalue :=
  {[ "type" := PyStr "openIdConnect";
     "openIdConnectUrl" := PyStr "https://example.com/openIdConnect" ]}.

(** issue #5: allow relative path *)
Definition example_relative_path : gmap string pyvalue :=
  {[ "type" := PyStr "openIdConnect"; "openIdConnectUrl" := PyStr "openIdConnect" ]}.

Definition examples : list (gmap string pyvalue) :=
  [ example_http_basic; example_apiKey; example_http_bearer; example_oauth2;
    example_openIdConnect; example_relative_path ].

(** ** The model *)

(** *** Collaborators

    [pydantic.AnyUrl] and the nested model [OAuthFlows] (module
    [.oauth_flows]) are used by [SecurityScheme] but defined elsewhere, and
    the interpreter sets how long an [int] [str()] converts.

    - [int_max_str_digits] is [sys.get_int_max_str_digits()]: the most
      digits [str()] writes for an [int], [0] when the interpreter has no
      limit (CPython from 3.11 on has 4300 unless it is told otherwise);
    - [AnyUrl_parse s] is what [AnyUrl.validate] makes of the text [s]
      (stripping, length check, URL pattern, validation of the parts): the
      URL object, or [None] when it raises;
    - [AnyUrl_str u] is the text of the URL object [u] ([AnyUrl] is a
      subclass of [str]);
    - [OAuthFlows_init d] is [OAuthFlows] called on the keywords [d]: the
      model, or [None] when the call raises;
    - [OAuthFlows_dict by_alias exclude_none f] is
      [f.dict(by_alias=..., exclude_none=...)] with its values as JSON
      writes them. *)
Class Collaborators : Type := {
  int_max_str_digits : Z;
  AnyUrl : Type;
  AnyUrl_parse : string → option AnyUrl;
  AnyUrl_str : AnyUrl → string;
  OAuthFlows : Type;
  OAuthFlows_init : list (string * pyvalue) → option OAuthFlows;
  OAuthFlows_dict : bool → bool → OAuthFlows → list (string * pyvalue)
}.

(** What the model asks of its collaborators for a round trip: the text of
    a URL object parses to that object again, and a nested model is rebuilt
    from its own [dict()].  Equality is Python's [==]: URL objects
    are equal when their texts are, nested models when their attributes
    are. *)
Class Lawful {collab : Collaborators} : Prop := {
  AnyUrl_parse_str :
    ∀ s u, AnyUrl_parse s = Some u → AnyUrl_parse (AnyUrl_str u) = Some u;
  OAuthFlows_init_dict :
    ∀ by_alias exclude_none d f,
      OAuthFlows_init d = Some f →
      OAuthFlows_init (OAuthFlows_dict by_alias exclude_none f) = Some f
}.

Section SecurityScheme.

Context {collab : Collaborators}.

(** The value of an attribute of a model: plain data, a URL object or a
    nested model. *)
Inductive pyobject : Type :=
| Data (v : pyvalue)
| Url (u : AnyUrl)
| Model (f : OAuthFlows).

(** *** Field validation *)

(** [str(z)] for an [int]: the decimal digits, with a sign when [z] is
    negative; a [ValueError] when the interpreter has a limit and [z] has
    more digits than that. *)
Definition int_str (z : Z) : string + PydanticError :=
  if (0 <? int_max_str_digits)%Z
     && (int_max_str_digits <? Z.of_nat (String.length (pretty (Z.abs z))))%Z
  then inr IntMaxStrDigitsError
  else inl (pretty z).

(** [pydantic.validators.str_validator]: a [str] is kept, an [int], [float]
    or [bool] (a subclass of [int]) becomes [str(v)], anything else is a
    [StrError]. *)
Definition str_validator (v : pyvalue) : string + PydanticError :=
  match v with
  | PyStr s => inl s
  | PyInt z => int_str z
  | PyBool b => inl (if b then "True" else "False")
  | PyFloat r => inl r
  | PyNone | PyList _ | PyDict _ => inr StrError
  end.

(** [AnyUrl.validate] on plain data: [str_validator] first, then the URL
    checks. *)
Definition AnyUrl_validate (v : pyvalue) : AnyUrl + PydanticError :=
  match str_validator v with
  | inr e => inr e
  | inl s =>
      match AnyUrl_parse s with
      | Some u => inl u
      | None => inr UrlError
      end
  end.

(** The call of the nested model on keyword arguments.  When it raises,
    it is the [TypeError] of Python if one of the keywords is
    [__pydantic_self__], the name [BaseModel.__init__] gives the instance,
    and the [ValidationError] of the nested model otherwise. *)
Definition OAuthFlows_call (d : list (string * pyvalue)) : OAuthFlows + PydanticError :=
  match OAuthFlows_init d with
  | Some f => inl f
  | None =>
      inr (if bool_decide ("__pydantic_self__" ∈ d.*1)
           then MultipleValuesTypeError else NestedValidationError)
  end.

(** [BaseModel.validate] (the class method a model-typed field is validated
    with): a [dict] is unpacked into the constructor; anything else goes
    through [dict(value)], a failure of which is a [DictError]. *)
Definition OAuthFlows_validate (v : pyvalue) : OAuthFlows + PydanticError :=
  match v with
  | PyDict d => OAuthFlows_call d
  | _ =>
      match dict_of_iterable v with
      | None => inr DictError
      | Some kvs =>
          match keywords kvs [] with
          | None => inr KeywordTypeError
          | Some d => OAuthFlows_call d
          end
      end
  end.

(** [ModelField._validate_singleton]: the validator of the type; for a
    [Union] the members in order, the first success wins and the errors of
    all members are reported when none succeeds. *)
Fixpoint validate_singleton (t : FieldType) (v : pyvalue)
  : pyobject + list PydanticError :=
  match t with
  | Str =>
      match str_validator v with
      | inl s => inl (Data (PyStr s))
      | inr e => inr [e]
      end
  | AnyUrlT =>
      match AnyUrl_validate v with
      | inl u => inl (Url u)
      | inr e => inr [e]
      end
  | OAuthFlowsT =>
      match OAuthFlows_validate v with
      | inl f => inl (Model f)
      | inr e => inr [e]
      end
  | Union a b =>
      match validate_singleton a v with
      | inl o => inl o
      | inr ea =>
          match validate_singleton b v with
          | inl o => inl o
          | inr eb => inr (ea ++ eb)
          end
      end
  end.

(** [ModelField.validate]: [None] is accepted as it is by an [Optional]
    field and refused by any other; every other value goes to the validator
    of the type. *)
Definition validate (field : ModelField) (v : pyvalue)
  : pyobject + list PydanticError :=
  match v with
  | PyNone =>
      if allow_none field then inl (Data PyNone)
      else inr [NoneIsNotAllowedError]
  | _ => validate_singleton (type_ field) v
  end.

(** *** [pydantic.main.validate_model] *)

Record validation_state : Type := mkState {
  values : gmap string pyobject;
  fields_set : gset string;      (* field names, never aliases *)
  names_used : gset string;      (* input names, possibly aliases *)
  errors : list ErrorWrapper
}.

Definition add_errors (es : list ErrorWrapper) (st : validation_state) :=
  mkState (values st) (fields_set st) (names_used st) (errors st ++ es).

Definition set_value (k : string) (o : pyobject) (st : validation_state) :=
  mkState (<[k := o]> (values st)) (fields_set st) (names_used st) (errors st).

Definition mark_set (k : string) (used : option string) (st : validation_state) :=
  mkState (values st) ({[k]} ∪ fields_set st)
          (match used with Some n => {[n]} ∪ names_used st | None => names_used st end)
          (errors st).

Definition check_extra (config : BaseConfig) : bool :=
  match extra config with Extra.ignore => false | _ => true end.

(** The value the input gives a field and whether it was found under the
    field's name rather than its alias: the alias is looked up first, the
    name only when the alias is missing, the configuration allows it and the
    field has an alias of its own. *)
Definition field_input (config : BaseConfig) (input_data : gmap string pyvalue)
    (field : ModelField) : option pyvalue * bool :=
  match input_data !! alias field with
  | Some v => (Some v, false)
  | None =>
      if allow_population_by_field_name config && alt_alias field
      then (input_data !! name field, true)
      else (None, false)
  end.

(** One round of the loop over [model.__fields__]. *)
Definition validate_field (config : BaseConfig) (input_data : gmap string pyvalue)
    (st : validation_state) (field : ModelField) : validation_state :=
  match field_input config input_data field with
  | (None, _) =>
      if required field
      then add_errors [mkError MissingError (alias field)] st
      else set_value (name field) (Data (default field)) st
  | (Some v, using_name) =>
      let st :=
        mark_set (name field)
          (if check_extra config
           then Some (if using_name then name field else alias field)
           else None) st in
      match validate field v with
      | inl o => set_value (name field) o st
      | inr es => add_errors ((λ e, mkError e (alias field)) <$> es) st
      end
  end.

(** What one round of the loop does with a field: the attribute it sets
    or the errors it reports. *)
Definition field_outcome (config : BaseConfig) (input_data : gmap string pyvalue)
    (field : ModelField) : pyobject + list ErrorWrapper :=
  match (field_input config input_data field).1 with
  | None =>
      if required field
      then inr [mkError MissingError (alias field)]
      else inl (Data (default field))
  | Some v =>
      match validate field v with
      | inl o => inl o
      | inr es => inr ((λ e, mkError e (alias field)) <$> es)
      end
  end.

Definition outcome_errors (x : pyobject + list ErrorWrapper) : list ErrorWrapper :=
  match x with inl _ => [] | inr es => es end.

Definition outcome_store (k : string) (x : pyobject + list ErrorWrapper)
    (vals : gmap string pyobject) : gmap string pyobject :=
  match x with inl o => <[k := o]> vals | inr _ => vals end.

(** All the errors of the loop, and the attributes it sets, field by
    field. *)
Definition loop_errors (config : BaseConfig) (fs : list ModelField)
    (input_data : gmap string pyvalue) : list ErrorWrapper :=
  concat ((λ f, outcome_errors (field_outcome config input_data f)) <$> fs).

Definition loop_values (config : BaseConfig) (fs : list ModelField)
    (input_data : gmap string pyvalue) : gmap string pyobject :=
  foldl (λ vals f, outcome_store (name f) (field_outcome config input_data f) vals)
        ∅ fs.

(** The keys of the input that no field used: passed over under
    [Extra.ignore], kept as attributes under [Extra.allow], one [ExtraError]
    each (in sorted order) under [Extra.forbid]. *)
Definition validate_extra (config : BaseConfig) (input_data : gmap string pyvalue)
    (st : validation_state) : validation_state :=
  let extras : gset string := dom input_data ∖ names_used st in
  match extra config with
  | Extra.ignore => st
  | Extra.allow =>
      mkState
        (foldl (λ vals f, match input_data !! f with
                          | Some v => <[f := Data v]> vals
                          | None => vals
                          end) (values st) (elements extras))
        (fields_set st ∪ extras) (names_used st) (errors st)
  | Extra.forbid =>
      mkState
        (values st) (fields_set st ∪ extras) (names_used st)
        (errors st ++ (mkError ExtraError <$> merge_sort string_le (elements extras)))
  end.

Definition validate_model (config : BaseConfig) (fields : list ModelField)
    (input_data : gmap string pyvalue)
  : gmap string pyobject * gset string * list ErrorWrapper :=
  let st := foldl (validate_field config input_data) (mkState ∅ ∅ ∅ []) fields in
  let st := validate_extra config input_data st in
  (values st, fields_set st, errors st).

(** *** [BaseModel] *)

Record BaseModel : Type := mkModel {
  __dict__ : gmap string pyobject;
  __fields_set__ : gset string
}.

(** [BaseModel.__init__]: the model when [validate_model] reports no error,
    the [ValidationError] with all the errors otherwise. *)
Definition BaseModel_init (config : BaseConfig) (fields : list ModelField)
    (data : gmap string pyvalue) : BaseModel + list ErrorWrapper :=
  match validate_model config fields data with
  | (values, fields_set, []) => inl (mkModel values fields_set)
  | (_, _, errs) => inr errs
  end.

(** [BaseModel.__eq__] compares [self.dict()] with [other.dict()] and takes
    no account of [__fields_set__]; models with the same attributes are
    equal. *)
Definition model_eq (a b : BaseModel) : Prop := __dict__ a = __dict__ b.

(** What JSON writes for an attribute: a URL object is a [str], a nested
    model its own [dict()]. *)
Definition jsonable (by_alias exclude_none : bool) (o : pyobject) : pyvalue :=
  match o with
  | Data v => v
  | Url u => PyStr (AnyUrl_str u)
  | Model f => PyDict (OAuthFlows_dict by_alias exclude_none f)
  end.

Definition is_None (o : pyobject) : bool :=
  match o with
  | Data PyNone => true
  | _ => false
  end.

(** The key an attribute is written under: the alias of the field of that
    name when [by_alias] is set, the attribute's own name otherwise. *)
Definition dict_key (fields : list ModelField) (by_alias : bool) (field_key : string)
  : string :=
  if by_alias then
    match find (λ f, bool_decide (name f = field_key)) fields with
    | Some f => alias f
    | None => field_key
    end
  else field_key.

(** [BaseModel._iter]: the attributes of [__dict__], without those that are
    [None] when [exclude_none] is set. *)
Definition iter (fields : list ModelField) (by_alias exclude_none : bool)
    (self : BaseModel) : list (string * pyvalue) :=
  (λ kv, (dict_key fields by_alias kv.1, jsonable by_alias exclude_none kv.2))
    <$> filter (λ kv, ¬ (exclude_none && is_None kv.2))
               (map_to_list (__dict__ self)).

(** [BaseModel.dict(by_alias=..., exclude_none=...)], the other arguments
    left at their defaults, with the values as [json()] writes them. *)
Definition dict (fields : list ModelField) (by_alias exclude_none : bool)
    (self : BaseModel) : gmap string pyvalue :=
  list_to_map (iter fields by_alias exclude_none self).

(** A call of a model class with the entries of [data] as keywords.
    Python binds the keywords to the parameters of
    [BaseModel.__init__(__pydantic_self__, ...)] before it runs it: a
    keyword [__pydantic_self__] is a second value for the parameter that
    holds the instance, a [TypeError].  Any other keyword is data. *)
Definition BaseModel_call (config : BaseConfig) (fields : list ModelField)
    (data : gmap string pyvalue) : BaseModel + Raised :=
  match data !! "__pydantic_self__" with
  | Some _ => inr TypeError
  | None =>
      match BaseModel_init config fields data with
      | inl self => inl self
      | inr errs => inr (ValidationError errs)
      end
  end.

(** *** The class [SecurityScheme] *)

(** [SecurityScheme.__init__] on the keywords [data]. *)
Definition SecurityScheme_init (data : gmap string pyvalue)
  : BaseModel + list ErrorWrapper :=
  BaseModel_init Config fields data.

(** [SecurityScheme.parse_obj(data)], construction from a mapping: the
    class called with the entries of the mapping as keywords. *)
Definition parse_obj (data : gmap string pyvalue) : BaseModel + Raised :=
  BaseModel_call Config fields data.

(** Modelled from the spec: the call that serializes a model is not among
    the sources.  The spec has the output hold only the fields that are
    set, under their wire names: [self.dict(by_alias=True,
    exclude_none=True)], read as JSON. *)
Definition serialize (self : BaseModel) : gmap string pyvalue :=
  dict fields true true self.

(** The attribute [self.<field>]. *)
Definition getattr (self : BaseModel) (field : string) : option pyobject :=
  __dict__ self !! field.

End SecurityScheme.

(** ** An instance of the collaborators

    A URL is a text [scheme://rest] whose scheme is made of lower-case
    letters and whose rest is not empty; the nested model keeps the mapping
    it is given; [str()] writes 4300 digits at most.  The instance runs the
    model on examples. *)
Module Reference.

Definition is_lower (c : ascii) : bool :=
  (97 <=? nat_of_ascii c)%nat && (nat_of_ascii c <=? 122)%nat.

Fixpoint scheme_and_rest (s : string) (n : nat) : bool :=
  match s with
  | String ":" (String "/" (String "/" rest)) =>
      (0 <? n)%nat && negb (String.eqb rest "")
  | String c s' => is_lower c && scheme_and_rest s' (S n)
  | EmptyString => false
  end.

Definition parse (s : string) : option string :=
  if scheme_and_rest s 0 then Some s else None.

#[export] Instance collaborators : Collaborators := {|
  int_max_str_digits := 4300;
  AnyUrl := string;
  AnyUrl_parse := parse;
  AnyUrl_str := λ u, u;
  OAuthFlows := list (string * pyvalue);
  OAuthFlows_init := λ d, Some d;
  OAuthFlows_dict := λ _ _ f, f
|}.

Definition url_of (s : string) : @AnyUrl collaborators := s.
Definition flows_of (d : list (string * pyvalue)) : @OAuthFlows collaborators := d.

(** The model a mapping constructs (an empty object when it is refused),
    and the mapping it is serialized to. *)
Definition model_of (m : gmap string pyvalue) : BaseModel :=
  match parse_obj m with
  | inl r => r
  | inr _ => mkModel ∅ ∅
  end.

Definition accepted (m : gmap string pyvalue) : bool :=
  match parse_obj m with
  | inl _ => true
  | inr _ => false
  end.

Definition wire_of (m : gmap string pyvalue) : option (gmap string pyvalue) :=
  match parse_obj m with
  | inl r => Some (serialize r)
  | inr _ => None
  end.

End Reference.

(** ** The enumerations of the docstrings, as properties of a model *)

Definition type_in_enum {collab : Collaborators} (r : BaseModel) : Prop :=
  ∃ s, getattr r "type" = Some (Data (PyStr s)) ∧ s ∈ type_values.

Definition location_in_enum {collab : Collaborators} (r : BaseModel) : Prop :=
  ∀ o, getattr r "security_scheme_in" = Some o → is_None o = false →
       ∃ s, o = Data (PyStr s) ∧ s ∈ in_values.

(** The mapping the fourth example of [schema_extra] gives [flows]. *)
Definition example_oauth2_flows : list (string * pyvalue) :=
  [ ("implicit", PyDict
       [ ("authorizationUrl", PyStr "https://example.com/api/oauth/dialog");
         ("scopes", PyDict [ ("write:pets", PyStr "modify pets in your account");
                             ("read:pets", PyStr "read your pets") ]) ]) ].

(** ** Shapes of inputs and attributes *)

Section Shapes.

Context {collab : Collaborators}.

(** An attribute has the type a field is annotated with. *)
Fixpoint has_type (t : FieldType) (o : pyobject) : Prop :=
  match t with
  | Str => ∃ s, o = Data (PyStr s)
  | AnyUrlT => ∃ u, o = Url u
  | OAuthFlowsT => ∃ fl, o = Model fl
  | Union a b => has_type a o ∨ has_type b o
  end.

(** ... or is [None], for a field annotated [Optional]. *)
Definition well_typed (f : ModelField) (o : pyobject) : Prop :=
  (allow_none f = true ∧ o = Data PyNone) ∨ has_type (type_ f) o.

(** An input a [str] field without a requirement takes: nothing, [None],
    or a value [str_validator] accepts. *)
Definition optional_text (x : option pyvalue) : Prop :=
  match x with
  | None | Some PyNone => True
  | Some v => ∃ s, str_validator v = inl s
  end.

(** The input of the location: the value under [in], or when there is none
    the value under [security_scheme_in]. *)
Definition location_input (m : gmap string pyvalue) : option pyvalue :=
  match m !! "in" with
  | Some v => Some v
  | None => m !! "security_scheme_in"
  end.

(** A value as [dict(by_alias=True, exclude_none=True)] writes it for a
    field of type [t]: a text, the text of a URL, the mapping of a nested
    model; for a [Union] a value of the first member, or one of the second
    that the first member refuses. *)
Fixpoint wire_value (t : FieldType) (v : pyvalue) : Prop :=
  match t with
  | Str => ∃ s, v = PyStr s
  | AnyUrlT => ∃ s u, v = PyStr s ∧ AnyUrl_parse s = Some u ∧ AnyUrl_str u = s
  | OAuthFlowsT =>
      ∃ d fl, v = PyDict d ∧ OAuthFlows_init d = Some fl
              ∧ OAuthFlows_dict true true fl = d
  | Union a b =>
      wire_value a v ∨ ((∃ es, validate_singleton a v = inr es) ∧ wire_value b v)
  end.

(** A mapping in wire form: a [type], wire names only, and under each a
    value in the form it is written in. *)
Definition canonical (m : gmap string pyvalue) : Prop :=
  is_Some (m !! "type")
  ∧ (∀ k, is_Some (m !! k) → k ∈ alias <$> fields)
  ∧ (∀ f v, f ∈ fields → m !! alias f = Some v → wire_value (type_ f) v).

(** Two results of construction that a caller cannot tell apart by [==]:
    the same exception, or equal models. *)
Definition agree {E : Type} (a b : BaseModel + E) : Prop :=
  match a, b with
  | inl r, inl r' => model_eq r r'
  | inr e, inr e' => e = e'
  | _, _ => False
  end.

End Shapes.

(** * Properties *)

Section Properties.

Context {collab : Collaborators}.

Implicit Types (m : gmap string pyvalue) (f : ModelField) (st : validation_state)
  (r : BaseModel) (o : pyobject) (v : pyvalue) (k : string) (ba en : bool).

(** ** The text of an [int] *)

(** The digits [pretty] writes for a number are more than [n] exactly when
    the number reaches [10 ^ n]. *)
Lemma pretty_N_go_length (x : N) : ∀ (s : string) (n : nat),
  (0 < x)%N →
  (n + String.length s < String.length (pretty_N_go x s))%nat
  ↔ (10 ^ N.of_nat n ≤ x)%N.
Proof.
  induction (N.lt_wf_0 x) as [x _ IH]. intros s n Hx.
  rewrite pretty_N_go_step by done.
  destruct (decide (x < 10)%N) as [Hlt|Hge].
  - rewrite (N.div_small x 10) by done. rewrite pretty_N_go_0. simpl.
    destruct n as [|n]; [simpl; lia|].
    split; [lia|]. intros Hle.
    assert (10 ^ 1 ≤ 10 ^ N.of_nat (S n))%N by (apply N.pow_le_mono_r; lia).
    lia.
  - assert (0 < x `div` 10)%N as Hpos by (apply N.div_str_pos; lia).
    assert (x `div` 10 < x)%N as Hdiv by (apply N.div_lt; lia).
    destruct n as [|n].
    + pose proof (proj2 (IH _ Hdiv (String (pretty_N_char (x `mod` 10)) s)
                            0%nat Hpos)) as H.
      simpl in *. split; [lia|]. intros _. specialize (H ltac:(lia)). lia.
    + pose proof (IH _ Hdiv (String (pretty_N_char (x `mod` 10)) s) n Hpos) as H.
      simpl in H.
      assert ((10 ^ N.of_nat (S n) ≤ x)%N ↔ (10 ^ N.of_nat n ≤ x `div` 10)%N)
        as ->.
      { rewrite Nat2N.inj_succ, N.pow_succ_r'. split.
        - intros Hle. apply N.div_le_lower_bound; lia.
        - intros Hle. pose proof (N.Div0.mul_div_le x 10). nia. }
      rewrite <- H. simpl. lia.
Qed.

Lemma pretty_Z_abs_length (z n : Z) :
  (0 < n)%Z →
  (n < Z.of_nat (String.length (pretty (Z.abs z))))%Z ↔ (10 ^ n ≤ Z.abs z)%Z.
Proof.
  intros Hn.
  assert (∀ p : positive,
            (n < Z.of_nat (String.length (pretty (Z.pos p))))%Z
            ↔ (10 ^ n ≤ Z.pos p)%Z) as Hpos.
  { intros p. change (pretty (Z.pos p)) with (pretty_N_go (N.pos p) "").
    pose proof (pretty_N_go_length (N.pos p) "" (Z.to_nat n) ltac:(lia)) as H.
    simpl in H. rewrite Nat.add_0_r in H.
    assert ((10 ^ n ≤ Z.pos p)%Z ↔ (10 ^ N.of_nat (Z.to_nat n) ≤ N.pos p)%N) as ->.
    { rewrite <- (Z2Nat.id n) at 1 by lia.
      rewrite <- nat_N_Z. change 10%Z with (Z.of_N 10).
      rewrite <- N2Z.inj_pow. change (Z.pos p) with (Z.of_N (N.pos p)). lia. }
    rewrite <- H. lia. }
  destruct z as [|p|p]; simpl Z.abs; [|apply Hpos..].
  change (pretty 0%Z) with "0". simpl.
  assert (10 ^ 1 ≤ 10 ^ n)%Z by (apply Z.pow_le_mono_r; lia). lia.
Qed.

(** [str()] refuses an [int] exactly when the interpreter has a limit and
    the number has more digits than that: when it reaches ten to the power
    of the limit. *)
Lemma int_str_refuses (z : Z) :
  int_str z = inr IntMaxStrDigitsError
  ↔ (0 < int_max_str_digits ∧ 10 ^ int_max_str_digits ≤ Z.abs z)%Z.
Proof.
  unfold int_str.
  destruct (0 <? int_max_str_digits)%Z eqn:H0; simpl.
  - apply Z.ltb_lt in H0. rewrite <- (pretty_Z_abs_length z) by done.
    destruct (int_max_str_digits <? _)%Z eqn:H1.
    + apply Z.ltb_lt in H1. by split.
    + apply Z.ltb_ge in H1. split; [done|lia].
  - apply Z.ltb_ge in H0. split; [done|lia].
Qed.

Lemma int_str_accepts (z : Z) :
  int_str z = inl (pretty z)
  ↔ ¬ (0 < int_max_str_digits ∧ 10 ^ int_max_str_digits ≤ Z.abs z)%Z.
Proof.
  rewrite <- int_str_refuses. unfold int_str.
  by destruct (_ && _); split; [intros ? ?|intros ?|intros ? ?|intros ?].
Qed.

Lemma int_str_inr (z : Z) e : int_str z = inr e → e = IntMaxStrDigitsError.
Proof. unfold int_str. case_match; by intros [= <-]. Qed.

(** ** The loop of [validate_model] *)

Lemma validate_field_values config m st f :
  values (validate_field config m st f)
  = outcome_store (name f) (field_outcome config m f) (values st).
Proof.
  unfold validate_field, field_outcome.
  destruct (field_input config m f) as [[v|] u]; simpl.
  - by destruct (validate f v).
  - by destruct (required f).
Qed.

Lemma validate_field_errors config m st f :
  errors (validate_field config m st f)
  = errors st ++ outcome_errors (field_outcome config m f).
Proof.
  unfold validate_field, field_outcome.
  destruct (field_input config m f) as [[v|] u]; simpl.
  - destruct (validate f v); simpl; by rewrite ?app_nil_r.
  - destruct (required f); simpl; by rewrite ?app_nil_r.
Qed.

Lemma foldl_validate_errors config m fs st :
  errors (foldl (validate_field config m) st fs)
  = errors st ++ loop_errors config fs m.
Proof.
  unfold loop_errors. revert st. induction fs as [|f fs IH]; intros st; simpl.
  - by rewrite app_nil_r.
  - by rewrite IH, validate_field_errors, <- app_assoc.
Qed.

Lemma foldl_validate_values config m fs st :
  values (foldl (validate_field config m) st fs)
  = foldl (λ vals f, outcome_store (name f) (field_outcome config m f) vals)
          (values st) fs.
Proof.
  revert st. induction fs as [|f fs IH]; intros st; simpl; [done|].
  by rewrite IH, validate_field_values.
Qed.

Lemma store_other config m fs (vals : gmap string pyobject) k :
  k ∉ name <$> fs →
  foldl (λ vals f, outcome_store (name f) (field_outcome config m f) vals) vals fs !! k
  = vals !! k.
Proof.
  revert vals. induction fs as [|f fs IH]; intros vals Hk; simpl; [done|].
  rewrite fmap_cons, not_elem_of_cons in Hk. destruct Hk as [Hne Hk].
  rewrite IH by done. unfold outcome_store.
  destruct (field_outcome config m f); [|done].
  by rewrite lookup_insert_ne.
Qed.

Lemma store_field config m fs (vals : gmap string pyobject) f o :
  NoDup (name <$> fs) → f ∈ fs → field_outcome config m f = inl o →
  foldl (λ vals f, outcome_store (name f) (field_outcome config m f) vals) vals fs
    !! name f = Some o.
Proof.
  revert vals. induction fs as [|f' fs IH]; intros vals Hnd Hin Ho; simpl.
  - by apply elem_of_nil in Hin.
  - rewrite fmap_cons in Hnd. apply NoDup_cons in Hnd as [Hf' Hnd].
    apply elem_of_cons in Hin as [->|Hin]; [|by apply IH].
    rewrite store_other by done. rewrite Ho. simpl. apply lookup_insert_eq.
Qed.

(** A validator that fails reports at least one error. *)
Lemma validate_singleton_errors t v es :
  validate_singleton t v = inr es → es ≠ [].
Proof.
  revert es. induction t as [| | |a IHa b IHb]; intros es; simpl.
  - destruct (str_validator v); intros [= <-]; done.
  - destruct (AnyUrl_validate v); intros [= <-]; done.
  - destruct (OAuthFlows_validate v); intros [= <-]; done.
  - destruct (validate_singleton a v) as [|ea]; [done|].
    destruct (validate_singleton b v) as [|eb]; [done|].
    intros [= <-] [Hea _]%app_eq_nil. by eapply IHa.
Qed.

Lemma validate_errors f v es : validate f v = inr es → es ≠ [].
Proof.
  unfold validate. destruct v; eauto using validate_singleton_errors.
  destruct (allow_none f); intros [= <-]; done.
Qed.

Lemma field_outcome_errors config m f es :
  field_outcome config m f = inr es → es ≠ [].
Proof.
  unfold field_outcome. destruct (field_input config m f).1 as [v|].
  - destruct (validate f v) as [|es'] eqn:Hv; [done|].
    intros [= <-]. apply validate_errors in Hv. by destruct es'.
  - destruct (required f); intros [= <-]; done.
Qed.

Lemma loop_errors_nil config fs m :
  loop_errors config fs m = [] ↔
  ∀ f, f ∈ fs → ∃ o, field_outcome config m f = inl o.
Proof.
  unfold loop_errors. induction fs as [|f fs IH]; simpl.
  - split; [|done]. intros _ f Hf. by apply elem_of_nil in Hf.
  - split.
    + intros [Hf Hfs]%app_eq_nil f' [Heq|Hin]%elem_of_cons; [|by apply IH].
      subst f'. destruct (field_outcome config m f) as [o|es] eqn:Ho; [by eexists|].
      by apply field_outcome_errors in Ho.
    + intros Hall. destruct (Hall f) as [o Ho]; [by left|].
      rewrite Ho. simpl. apply IH. intros f' Hf'. apply Hall. by right.
Qed.

(** ** Construction of a [SecurityScheme] *)

(** Construction, unfolded: the errors of the fields decide, and the
    attributes are the ones the fields set. *)
Lemma SecurityScheme_init_unfold m :
  SecurityScheme_init m =
  match loop_errors Config fields m with
  | [] => inl (mkModel (loop_values Config fields m)
                       (fields_set (foldl (validate_field Config m)
                                          (mkState ∅ ∅ ∅ []) fields)))
  | es => inr es
  end.
Proof.
  unfold SecurityScheme_init, BaseModel_init, validate_model, validate_extra.
  cbn [Config DefaultConfig extra].
  rewrite foldl_validate_errors, foldl_validate_values.
  cbn [errors values app]. by destruct (loop_errors Config fields m).
Qed.

Lemma NoDup_names : NoDup (name <$> fields).
Proof. apply (bool_decide_unpack _). by vm_compute. Qed.

Lemma SecurityScheme_init_inl m r :
  SecurityScheme_init m = inl r →
  loop_errors Config fields m = [] ∧ __dict__ r = loop_values Config fields m.
Proof.
  rewrite SecurityScheme_init_unfold. destruct (loop_errors Config fields m); [|done].
  by intros [= <-].
Qed.

Lemma SecurityScheme_init_inr m es :
  SecurityScheme_init m = inr es → loop_errors Config fields m = es ∧ es ≠ [].
Proof.
  rewrite SecurityScheme_init_unfold. destruct (loop_errors Config fields m); [done|].
  by intros [= <-].
Qed.

(** A constructed model holds, for every field, the attribute that field's
    round of the loop set ... *)
Lemma SecurityScheme_init_field m r f :
  SecurityScheme_init m = inl r → f ∈ fields →
  ∃ o, field_outcome Config m f = inl o ∧ __dict__ r !! name f = Some o.
Proof.
  intros [Hnil ->]%SecurityScheme_init_inl Hf.
  destruct (proj1 (loop_errors_nil _ _ _) Hnil f Hf) as [o Ho].
  exists o. split; [done|].
  by apply store_field; [apply NoDup_names|..].
Qed.

(** ... and nothing else. *)
Lemma SecurityScheme_init_other m r k :
  SecurityScheme_init m = inl r → k ∉ name <$> fields → __dict__ r !! k = None.
Proof.
  intros [_ ->]%SecurityScheme_init_inl Hk. unfold loop_values.
  by rewrite store_other.
Qed.

(** Construction succeeds as soon as every field is satisfied on its
    own. *)
Lemma SecurityScheme_init_succeeds m :
  (∀ f, f ∈ fields → ∃ o, field_outcome Config m f = inl o) →
  ∃ r, SecurityScheme_init m = inl r.
Proof.
  intros Hall%loop_errors_nil. rewrite SecurityScheme_init_unfold, Hall. by eexists.
Qed.

Lemma elem_of_loop_errors config fs m e :
  e ∈ loop_errors config fs m ↔
  ∃ f, f ∈ fs ∧ e ∈ outcome_errors (field_outcome config m f).
Proof.
  unfold loop_errors. induction fs as [|f fs IH]; simpl.
  - split; [by intros ?%elem_of_nil|]. by intros (f & ?%elem_of_nil & _).
  - rewrite elem_of_app, IH. split.
    + intros [He|(f' & Hf' & He)]; [exists f|exists f']; split; try done;
        by constructor.
    + intros (f' & [->|Hf']%elem_of_cons & He); [by left|right; eauto].
Qed.

(** The input of a field matters to its round of the loop only. *)
Lemma field_outcome_ext config m1 m2 f :
  (field_input config m1 f).1 = (field_input config m2 f).1 →
  field_outcome config m1 f = field_outcome config m2 f.
Proof. unfold field_outcome. by intros ->. Qed.

Lemma validate_field_ext config m1 m2 st f :
  check_extra config = false →
  (field_input config m1 f).1 = (field_input config m2 f).1 →
  validate_field config m1 st f = validate_field config m2 st f.
Proof.
  unfold validate_field. intros -> Hin.
  destruct (field_input config m1 f) as [v1 u1],
           (field_input config m2 f) as [v2 u2]; simpl in *. by subst.
Qed.

Lemma SecurityScheme_init_ext m1 m2 :
  (∀ f, f ∈ fields → (field_input Config m1 f).1 = (field_input Config m2 f).1) →
  SecurityScheme_init m1 = SecurityScheme_init m2.
Proof.
  intros Hin. unfold SecurityScheme_init, BaseModel_init, validate_model, validate_extra.
  cbn [Config DefaultConfig extra].
  enough (∀ st, foldl (validate_field Config m1) st fields
              = foldl (validate_field Config m2) st fields) as -> by done.
  revert Hin. generalize fields. intros fs.
  induction fs as [|f fs IH]; intros Hin st; simpl; [done|].
  rewrite (validate_field_ext _ m1 m2) by (done || apply Hin; by left).
  apply IH. intros f' Hf'. apply Hin. by right.
Qed.

(** Mappings whose fields have the same outcomes construct the same. *)
Lemma loop_ext m1 m2 fs :
  (∀ f, f ∈ fs → field_outcome Config m1 f = field_outcome Config m2 f) →
  loop_errors Config fs m1 = loop_errors Config fs m2
  ∧ loop_values Config fs m1 = loop_values Config fs m2.
Proof.
  intros Hall. split.
  - unfold loop_errors. f_equal. apply list_fmap_ext.
    intros i f Hf%list_elem_of_lookup_2. by rewrite Hall.
  - unfold loop_values. generalize (∅ : gmap string pyobject). revert Hall.
    induction fs as [|f fs IH]; intros Hall vals; simpl; [done|].
    rewrite (Hall f) by by left.
    apply IH. intros f' Hf'. apply Hall. by right.
Qed.

Lemma SecurityScheme_init_agree m1 m2 :
  (∀ f, f ∈ fields → field_outcome Config m1 f = field_outcome Config m2 f) →
  agree (SecurityScheme_init m1) (SecurityScheme_init m2).
Proof.
  intros [He Hv]%loop_ext. rewrite !SecurityScheme_init_unfold, He, Hv.
  by destruct (loop_errors Config fields m2).
Qed.

(** ** The call of the class *)

Lemma parse_obj_unfold m :
  parse_obj m =
  match m !! "__pydantic_self__" with
  | Some _ => inr TypeError
  | None =>
      match SecurityScheme_init m with
      | inl self => inl self
      | inr errs => inr (ValidationError errs)
      end
  end.
Proof. unfold parse_obj, BaseModel_call, SecurityScheme_init. reflexivity. Qed.

Lemma parse_obj_inl m r :
  parse_obj m = inl r ↔
  m !! "__pydantic_self__" = None ∧ SecurityScheme_init m = inl r.
Proof.
  rewrite parse_obj_unfold.
  destruct (m !! "__pydantic_self__").
  - split; [done|]. by intros [? _].
  - destruct (SecurityScheme_init m); split; try done.
    + by intros [= <-].
    + by intros [_ [= <-]].
    + by intros [_ ?].
Qed.

Lemma parse_obj_ValidationError m es :
  parse_obj m = inr (ValidationError es) ↔
  m !! "__pydantic_self__" = None ∧ SecurityScheme_init m = inr es.
Proof.
  rewrite parse_obj_unfold.
  destruct (m !! "__pydantic_self__").
  - split; [done|]. by intros [? _].
  - destruct (SecurityScheme_init m); split; try done.
    + by intros [_ ?].
    + by intros [= <-].
    + by intros [_ [= <-]].
Qed.

Lemma parse_obj_TypeError m :
  parse_obj m = inr TypeError ↔ is_Some (m !! "__pydantic_self__").
Proof.
  rewrite parse_obj_unfold.
  destruct (m !! "__pydantic_self__").
  - split; [by eexists|done].
  - destruct (SecurityScheme_init m); split; try done; by intros [? ?].
Qed.

(** The call depends on the mapping through the keyword
    [__pydantic_self__] and through what [__init__] makes of it. *)
Lemma parse_obj_ext m1 m2 :
  (m1 !! "__pydantic_self__" = None ↔ m2 !! "__pydantic_self__" = None) →
  SecurityScheme_init m1 = SecurityScheme_init m2 →
  parse_obj m1 = parse_obj m2.
Proof.
  rewrite !parse_obj_unfold. intros Hk ->.
  destruct (m1 !! "__pydantic_self__"), (m2 !! "__pydantic_self__"); try done.
  - discriminate (proj2 Hk eq_refl).
  - discriminate (proj1 Hk eq_refl).
Qed.

Lemma parse_obj_agree m1 m2 :
  (m1 !! "__pydantic_self__" = None ↔ m2 !! "__pydantic_self__" = None) →
  agree (SecurityScheme_init m1) (SecurityScheme_init m2) →
  agree (parse_obj m1) (parse_obj m2).
Proof.
  rewrite !parse_obj_unfold. intros Hk.
  destruct (m1 !! "__pydantic_self__"), (m2 !! "__pydantic_self__"); try done.
  - discriminate (proj2 Hk eq_refl).
  - discriminate (proj1 Hk eq_refl).
  - destruct (SecurityScheme_init m1), (SecurityScheme_init m2); try done.
    simpl. by intros ->.
Qed.

(** ** Serialization *)

(** Case analysis on the eight fields of the class. *)
Ltac each_field Hf :=
  unfold fields in Hf;
  repeat (apply elem_of_cons in Hf as [->|Hf]);
  [..|by apply elem_of_nil in Hf].

Lemma dict_key_alias k :
  dict_key fields true k = if decide (k = "security_scheme_in") then "in" else k.
Proof.
  unfold dict_key, fields. simpl.
  repeat (case_bool_decide; simpl; [subst k; by case_decide|]).
  by case_decide.
Qed.

Lemma dict_key_name ba f :
  f ∈ fields → dict_key fields ba (name f) = if ba then alias f else name f.
Proof.
  destruct ba; [|done]. unfold fields. rewrite !elem_of_cons, elem_of_nil.
  intros Hf. by repeat (destruct Hf as [->|Hf]; [reflexivity|]).
Qed.

Lemma dict_key_inj ba k1 k2 :
  k1 ≠ "in" → k2 ≠ "in" →
  dict_key fields ba k1 = dict_key fields ba k2 → k1 = k2.
Proof.
  destruct ba; [|done]. rewrite !dict_key_alias. repeat case_decide; congruence.
Qed.


Lemma is_None_true o : is_None o = true → o = Data PyNone.
Proof. by destruct o as [[]| |]. Qed.

(** Every entry of [dict()] is an attribute, under the key [dict_key] gives
    it, and it is not [None] when [exclude_none] is set. *)
Lemma dict_Some ba en r k' v :
  dict fields ba en r !! k' = Some v →
  ∃ k o, __dict__ r !! k = Some o ∧ dict_key fields ba k = k'
         ∧ en && is_None o = false ∧ v = jsonable ba en o.
Proof.
  unfold dict, iter. intros Hl%elem_of_list_to_map_2.
  apply list_elem_of_fmap in Hl as ([k o] & [= -> ->] & Hin).
  apply list_elem_of_filter in Hin as [Hp Hin%elem_of_map_to_list].
  exists k, o. simpl in *. repeat split; try done.
  by destruct (en && is_None o).
Qed.

Lemma dict_attr ba en r k o :
  __dict__ r !! "in" = None → __dict__ r !! k = Some o →
  dict fields ba en r !! dict_key fields ba k
  = if en && is_None o then None else Some (jsonable ba en o).
Proof.
  intros Hin Hk.
  assert (∀ k2 o2, __dict__ r !! k2 = Some o2 →
            dict_key fields ba k2 = dict_key fields ba k → o2 = o) as Huniq.
  { intros k2 o2 Hk2 Heq. apply dict_key_inj in Heq; [|congruence..].
    congruence. }
  destruct (en && is_None o) eqn:Hnone.
  - apply eq_None_not_Some. intros [v (k2 & o2 & Hk2 & Heq & Hn & _)%dict_Some].
    rewrite (Huniq _ _ Hk2 Heq) in Hn. congruence.
  - unfold dict, iter. apply elem_of_list_to_map_1'.
    + intros v ([k2 o2] & [= Hkey ->] & Hf)%list_elem_of_fmap.
      apply list_elem_of_filter in Hf as [_ Hf%elem_of_map_to_list].
      simpl in *. by rewrite (Huniq _ _ Hf (eq_sym Hkey)).
    + apply list_elem_of_fmap. exists (k, o). split; [done|].
      apply list_elem_of_filter. split; [|by apply elem_of_map_to_list].
      simpl. rewrite Hnone. by intros [].
Qed.

Lemma field_of_name k : k ∈ name <$> fields → ∃ f, f ∈ fields ∧ name f = k.
Proof. intros (f & -> & Hf)%list_elem_of_fmap. eauto. Qed.

Lemma SecurityScheme_init_attr m r k o :
  SecurityScheme_init m = inl r → __dict__ r !! k = Some o →
  ∃ f, f ∈ fields ∧ name f = k ∧ field_outcome Config m f = inl o.
Proof.
  intros Hr Hk. destruct (decide (k ∈ name <$> fields)) as [Hin|Hout].
  - apply field_of_name in Hin as (f & Hf & <-).
    destruct (SecurityScheme_init_field m r f Hr Hf) as (o' & Ho' & Hl).
    exists f. repeat split; try done. congruence.
  - rewrite (SecurityScheme_init_other m r k Hr Hout) in Hk. done.
Qed.

Lemma SecurityScheme_init_no_in m r : SecurityScheme_init m = inl r → __dict__ r !! "in" = None.
Proof.
  intros Hr. apply (SecurityScheme_init_other m r _ Hr).
  apply (bool_decide_unpack _). by vm_compute.
Qed.

(** A field of a constructed model is written under its alias (its name
    without [by_alias]), unless it is [None] and [exclude_none] is set. *)
Lemma dict_field ba en m r f o :
  SecurityScheme_init m = inl r → f ∈ fields → __dict__ r !! name f = Some o →
  dict fields ba en r !! (if ba then alias f else name f)
  = if en && is_None o then None else Some (jsonable ba en o).
Proof.
  intros Hr Hf Ho. rewrite <- (dict_key_name ba f Hf).
  apply dict_attr; [|done]. by eapply SecurityScheme_init_no_in.
Qed.

(** [dict()] of a constructed model has entries for fields only. *)
Lemma dict_only_fields ba en m r k v :
  SecurityScheme_init m = inl r → dict fields ba en r !! k = Some v →
  ∃ f o, f ∈ fields ∧ k = (if ba then alias f else name f)
         ∧ __dict__ r !! name f = Some o
         ∧ en && is_None o = false ∧ v = jsonable ba en o.
Proof.
  intros Hr (k0 & o & Hk0 & Hkey & Hn & ->)%dict_Some.
  destruct (SecurityScheme_init_attr m r k0 o Hr Hk0) as (f & Hf & <- & _).
  exists f, o. repeat split; try done.
  by rewrite <- Hkey, dict_key_name.
Qed.

Lemma serialize_field m r f o :
  SecurityScheme_init m = inl r → f ∈ fields → __dict__ r !! name f = Some o →
  serialize r !! alias f = if is_None o then None else Some (jsonable true true o).
Proof. apply (dict_field true true). Qed.

Lemma serialize_only_fields m r k v :
  SecurityScheme_init m = inl r → serialize r !! k = Some v →
  ∃ f o, f ∈ fields ∧ k = alias f ∧ __dict__ r !! name f = Some o
         ∧ is_None o = false ∧ v = jsonable true true o.
Proof. apply (dict_only_fields true true). Qed.


(** ** The input of a field *)

Lemma field_input_alias config m f v :
  m !! alias f = Some v → field_input config m f = (Some v, false).
Proof. unfold field_input. by intros ->. Qed.

Lemma field_input_plain config m f :
  alt_alias f = false → (field_input config m f).1 = m !! alias f.
Proof.
  unfold field_input. intros ->. rewrite andb_false_r.
  by destruct (m !! alias f).
Qed.

Lemma field_input_None m f :
  m !! alias f = None → m !! name f = None →
  (field_input Config m f).1 = None.
Proof.
  unfold field_input. intros -> Hn.
  by destruct (allow_population_by_field_name Config && alt_alias f).
Qed.

Lemma field_input_name m f :
  m !! alias f = None → alt_alias f = true →
  (field_input Config m f).1 = m !! name f.
Proof. unfold field_input. by intros -> ->. Qed.

(** What a field reads in [dict()] of a constructed model is the entry the
    field was written to: under the alias with [by_alias], and without it
    under the name, which population by field name accepts. *)
Lemma field_input_dict ba en m r f :
  SecurityScheme_init m = inl r → f ∈ fields →
  (field_input Config (dict fields ba en r) f).1
  = dict fields ba en r !! (if ba then alias f else name f).
Proof.
  intros Hr Hf.
  assert (∀ k, (∀ f', f' ∈ fields → k ≠ if ba then alias f' else name f') →
               dict fields ba en r !! k = None) as Hno.
  { intros k Hk. apply eq_None_not_Some.
    intros [v (f' & o & Hf' & -> & _)%(dict_only_fields ba en m)]; [|done].
    by eapply Hk. }
  destruct ba.
  - destruct (dict fields true en r !! alias f) as [v|] eqn:Hl.
    + by rewrite (field_input_alias _ _ _ v).
    + assert (dict fields true en r !! "security_scheme_in" = None) as Hssi.
      { apply Hno. intros f' Hf'. clear -Hf'. by each_field Hf'. }
      each_field Hf; first [by rewrite field_input_plain
                           | by apply field_input_None].
  - assert (dict fields false en r !! "in" = None) as Hin.
    { apply Hno. intros f' Hf'. clear -Hf'. by each_field Hf'. }
    each_field Hf; first [by rewrite field_input_plain
                         | by apply field_input_name].
Qed.

(** ** Validating a serialized attribute again *)

Lemma validate_singleton_not_None t v o :
  validate_singleton t v = inl o → is_None o = false.
Proof.
  revert o. induction t as [| | |a IHa b IHb]; intros o; simpl.
  - destruct (str_validator v); by intros [= <-].
  - destruct (AnyUrl_validate v); by intros [= <-].
  - destruct (OAuthFlows_validate v); by intros [= <-].
  - destruct (validate_singleton a v); [by intros [= <-]; apply IHa|].
    destruct (validate_singleton b v); [by intros [= <-]; apply IHb|done].
Qed.

Lemma validate_not_None f v o :
  validate f v = inl o → is_None o = false →
  v ≠ PyNone ∧ validate_singleton (type_ f) v = inl o.
Proof.
  unfold validate. destruct v; try done.
  destruct (allow_none f); [|done]. by intros [= <-].
Qed.

Lemma validate_None f v o :
  validate f v = inl o → is_None o = true → allow_none f = true.
Proof.
  unfold validate. destruct v;
    try (intros Hv%validate_singleton_not_None; congruence).
  by destruct (allow_none f).
Qed.

Lemma validate_jsonable ba en f o :
  is_None o = false →
  validate f (jsonable ba en o) = validate_singleton (type_ f) (jsonable ba en o).
Proof. by destruct o as [[]| |]. Qed.

Lemma OAuthFlows_validate_init v fl :
  OAuthFlows_validate v = inl fl → ∃ d, OAuthFlows_init d = Some fl.
Proof.
  assert (∀ d, OAuthFlows_call d = inl fl → ∃ d, OAuthFlows_init d = Some fl)
    as Hcall.
  { intros d. unfold OAuthFlows_call.
    destruct (OAuthFlows_init d) eqn:Hd; intros [= <-]. eauto. }
  unfold OAuthFlows_validate.
  destruct v; try apply Hcall;
    (destruct (dict_of_iterable _) as [kvs|]; [|done];
     destruct (keywords kvs []); [apply Hcall|done]).
Qed.

(** A field whose attribute is [None] is an [Optional] field with default
    [None]. *)
Lemma field_outcome_None m f :
  f ∈ fields → field_outcome Config m f = inl (Data PyNone) →
  required f = false ∧ allow_none f = true ∧ default f = PyNone.
Proof.
  intros Hf Ho. unfold field_outcome in Ho.
  destruct (field_input Config m f).1 as [v|].
  - destruct (validate f v) as [o'|] eqn:Hv; [|done].
    injection Ho as ->. apply validate_None in Hv; [|done].
    clear -Hf Hv. by each_field Hf.
  - clear -Hf Ho. by each_field Hf.
Qed.

(** [dict()] of a constructed model has no key [__pydantic_self__]. *)
Lemma dict_no_pydantic_self ba en m r :
  SecurityScheme_init m = inl r →
  dict fields ba en r !! "__pydantic_self__" = None.
Proof.
  intros Hr. apply eq_None_not_Some.
  intros [v (f & o & Hf & Hk & _)%(dict_only_fields ba en m)]; [|done].
  destruct ba; each_field Hf; discriminate Hk.
Qed.

(** What a field of type [str] makes of its input. *)
Lemma validate_Str f v o :
  validate f v = inl o → type_ f = Str →
  (v = PyNone ∧ o = Data PyNone)
  ∨ (v ≠ PyNone ∧ ∃ s, str_validator v = inl s ∧ o = Data (PyStr s)).
Proof.
  unfold validate. intros Hv Ht. rewrite Ht in Hv. revert Hv.
  assert (validate_singleton Str v = inl o →
          ∃ s, str_validator v = inl s ∧ o = Data (PyStr s)) as Hstr.
  { cbn [validate_singleton]. destruct (str_validator v) as [s|e]; [|done].
    intros [= <-]. by exists s. }
  destruct v; try (intros Hv; right; split; [done|by apply Hstr]).
  destruct (allow_none f); [|done]. intros [= <-]. by left.
Qed.

Lemma validate_Str_inr f v e :
  type_ f = Str → v ≠ PyNone → str_validator v = inr e →
  validate f v = inr [e].
Proof.
  unfold validate. intros -> Hv He.
  assert (validate_singleton Str v = inr [e]) as Hstr.
  { cbn [validate_singleton]. by rewrite He. }
  by destruct v.
Qed.

Lemma validate_Str_inl f v s :
  type_ f = Str → v ≠ PyNone → str_validator v = inl s →
  validate f v = inl (Data (PyStr s)).
Proof.
  unfold validate. intros -> Hv He.
  assert (validate_singleton Str v = inl (Data (PyStr s))) as Hstr.
  { cbn [validate_singleton]. by rewrite He. }
  by destruct v.
Qed.

Section RoundTrip.

Context {lawful : Lawful}.

Lemma revalidate_Str ba en v o :
  validate_singleton Str v = inl o →
  validate_singleton Str (jsonable ba en o) = inl o.
Proof. simpl. destruct (str_validator v); by intros [= <-]. Qed.

Lemma revalidate_OAuthFlows ba en v o :
  validate_singleton OAuthFlowsT v = inl o →
  validate_singleton OAuthFlowsT (jsonable ba en o) = inl o.
Proof.
  simpl. destruct (OAuthFlows_validate v) as [fl|] eqn:Hv; intros [= <-].
  apply OAuthFlows_validate_init in Hv as [d Hd]. simpl.
  unfold OAuthFlows_call. by rewrite (OAuthFlows_init_dict ba en d fl Hd).
Qed.

Lemma revalidate_Union_AnyUrl_Str ba en v o :
  validate_singleton (Union AnyUrlT Str) v = inl o →
  validate_singleton (Union AnyUrlT Str) (jsonable ba en o) = inl o.
Proof.
  simpl. unfold AnyUrl_validate.
  destruct (str_validator v) as [s|]; [|done].
  destruct (AnyUrl_parse s) as [u|] eqn:Hs; intros [= <-]; simpl.
  - by rewrite (AnyUrl_parse_str s u Hs).
  - by rewrite Hs.
Qed.

Lemma revalidate ba en f v o :
  f ∈ fields → validate f v = inl o → is_None o = false →
  validate f (jsonable ba en o) = inl o.
Proof.
  intros Hf Hv Hn. rewrite validate_jsonable by done.
  apply validate_not_None in Hv as [_ Hv]; [|done].
  each_field Hf;
    eauto using revalidate_Str, revalidate_OAuthFlows,
                revalidate_Union_AnyUrl_Str.
Qed.

(** The outcome of a field on [dict()] of the model is the attribute the
    model already holds. *)
Lemma field_outcome_dict ba en m r f o :
  SecurityScheme_init m = inl r → f ∈ fields →
  field_outcome Config m f = inl o → __dict__ r !! name f = Some o →
  field_outcome Config (dict fields ba en r) f = inl o.
Proof.
  intros Hr Hf Ho Hl. unfold field_outcome at 1.
  rewrite (field_input_dict ba en m r f Hr Hf).
  rewrite (dict_field ba en m r f o Hr Hf Hl).
  destruct (is_None o) eqn:Hn.
  - rewrite (is_None_true o Hn) in *.
    destruct (field_outcome_None m f Hf Ho) as (Hreq & Hnone & Hdef).
    destruct en; simpl.
    + by rewrite Hreq, Hdef.
    + by rewrite Hnone.
  - rewrite andb_false_r. unfold field_outcome in Ho.
    destruct (field_input Config m f).1 as [v|].
    + destruct (validate f v) as [o'|] eqn:Hv; [|done].
      injection Ho as ->. by rewrite (revalidate ba en f v o).
    + destruct (required f); [done|]. injection Ho as <-.
      clear -Hf Hn. by each_field Hf.
Qed.

(** Whatever the arguments of [dict()], a constructed model is constructed
    again, equal, from its own [dict()]. *)
Lemma dict_round_trip ba en m r :
  SecurityScheme_init m = inl r →
  ∃ r', SecurityScheme_init (dict fields ba en r) = inl r' ∧ model_eq r' r.
Proof.
  intros Hr.
  destruct (SecurityScheme_init_succeeds (dict fields ba en r)) as [r' Hr'].
  { intros f Hf. destruct (SecurityScheme_init_field m r f Hr Hf) as (o & Ho & Hl).
    exists o. by eapply field_outcome_dict. }
  exists r'. split; [done|]. apply map_eq. intros k.
  destruct (decide (k ∈ name <$> fields)) as [Hin|Hout].
  - apply field_of_name in Hin as (f & Hf & <-).
    destruct (SecurityScheme_init_field m r f Hr Hf) as (o & Ho & Hl).
    destruct (SecurityScheme_init_field _ r' f Hr' Hf) as (o' & Ho' & Hl').
    rewrite (field_outcome_dict ba en m r f o) in Ho' by done. congruence.
  - by rewrite (SecurityScheme_init_other _ r' k Hr'), (SecurityScheme_init_other m r k Hr).
Qed.

Lemma parse_obj_dict_round_trip ba en m r :
  parse_obj m = inl r →
  ∃ r', parse_obj (dict fields ba en r) = inl r' ∧ model_eq r' r.
Proof.
  intros [_ Hr]%parse_obj_inl.
  destruct (dict_round_trip ba en m r Hr) as (r' & Hr' & Heq).
  exists r'. split; [|done]. apply parse_obj_inl.
  split; [by eapply dict_no_pydantic_self|done].
Qed.

(** C1 (round trip): a model constructed from a valid mapping [m] is
    constructed again from its own serialized mapping, equal to the first
    one; serializing the second model gives the same mapping again. *)
Theorem round_trip m r :
  parse_obj m = inl r →
  ∃ r', parse_obj (serialize r) = inl r' ∧ model_eq r' r
        ∧ serialize r' = serialize r.
Proof.
  intros Hr.
  destruct (parse_obj_dict_round_trip true true m r Hr) as (r' & Hr' & Heq).
  exists r'. repeat split; try done.
  unfold serialize, dict, iter. by rewrite Heq.
Qed.

End RoundTrip.

(** ** Required and missing *)

(** C2, amended (missing [type]): a mapping without the key [type] never
    constructs a model.  It is refused with the missing required field
    [type] among the errors (a [MissingError] at [type]) when it has no key
    [__pydantic_self__], and with the [TypeError] of that keyword when it
    has. *)
Theorem missing_type_fails m :
  m !! "type" = None →
  (∀ r, parse_obj m ≠ inl r)
  ∧ (m !! "__pydantic_self__" = None →
     ∃ es, parse_obj m = inr (ValidationError es)
           ∧ mkError MissingError "type" ∈ es)
  ∧ (is_Some (m !! "__pydantic_self__") → parse_obj m = inr TypeError).
Proof.
  intros Hm.
  assert (mkError MissingError "type" ∈ loop_errors Config fields m) as He.
  { apply elem_of_loop_errors. exists (required_field "type" Str).
    split; [by left|]. unfold field_outcome, field_input. simpl.
    rewrite Hm. simpl. by left. }
  assert (∃ es, SecurityScheme_init m = inr es
                ∧ mkError MissingError "type" ∈ es) as (es & Hes & Hin).
  { rewrite SecurityScheme_init_unfold.
    destruct (loop_errors Config fields m) as [|e es];
      [by apply elem_of_nil in He|]. by eexists. }
  split; [|split].
  - intros r [_ Hr]%parse_obj_inl. congruence.
  - intros Hk. exists es. split; [|done]. by apply parse_obj_ValidationError.
  - by intros ?%parse_obj_TypeError.
Qed.

(** ** The location and its two names *)

(** Changing the value of one key leaves the outcome of every field that
    does not read that key as it was. *)
Lemma field_outcome_insert m k v f :
  alias f ≠ k → (alt_alias f = true → name f ≠ k) →
  field_outcome Config (<[k := v]> m) f = field_outcome Config m f.
Proof.
  intros Ha Hn. apply field_outcome_ext. unfold field_input.
  rewrite lookup_insert_ne by done.
  destruct (m !! alias f); [done|].
  destruct (alt_alias f); [|by rewrite andb_false_r].
  simpl. rewrite lookup_insert_ne; [done|]. intros ->. by apply Hn.
Qed.

Lemma field_outcome_insert_type m v f :
  f ∈ fields → name f ≠ "type" →
  field_outcome Config (<["type" := v]> m) f = field_outcome Config m f.
Proof.
  intros Hf Hne. apply field_outcome_insert; clear m v; by each_field Hf.
Qed.

(** The outcome of the location is what the field makes of the value under
    [in], and without [in] of the value under [security_scheme_in]. *)
Lemma location_outcome_validate m v :
  location_input m = Some v →
  field_outcome Config m (with_alias "in" (optional_field "security_scheme_in" Str))
  = match validate (with_alias "in" (optional_field "security_scheme_in" Str)) v with
    | inl o => inl o
    | inr es => inr ((λ e, mkError e "in") <$> es)
    end.
Proof.
  unfold field_outcome, field_input, location_input. simpl.
  destruct (m !! "in"); simpl; [by intros [= ->]|by intros ->].
Qed.

Lemma location_field : with_alias "in" (optional_field "security_scheme_in" Str) ∈ fields.
Proof. unfold fields. repeat constructor. Qed.

(** A mapping that is accepted is accepted with any string for the
    location, under either name, and the model holds that string. *)
Lemma location_string_accepted m k s :
  k = "in" ∨ (k = "security_scheme_in" ∧ m !! "in" = None) →
  (∃ r, parse_obj m = inl r) →
  ∃ r', parse_obj (<[k := PyStr s]> m) = inl r'
        ∧ getattr r' "security_scheme_in" = Some (Data (PyStr s)).
Proof.
  intros Hk [r [Hself Hr]%parse_obj_inl].
  assert (k ≠ "__pydantic_self__") as Hne by (by destruct Hk as [->|[-> _]]).
  assert (location_input (<[k := PyStr s]> m) = Some (PyStr s)) as Hloc.
  { unfold location_input. destruct Hk as [->|[-> Hin]].
    - by rewrite lookup_insert_eq.
    - rewrite lookup_insert_ne, Hin by done. by rewrite lookup_insert_eq. }
  assert (∀ f, f ∈ fields →
            ∃ o, field_outcome Config (<[k := PyStr s]> m) f = inl o) as Hall.
  { intros f Hf.
    assert (f = with_alias "in" (optional_field "security_scheme_in" Str)
            ∨ (alias f ≠ k ∧ (alt_alias f = true → name f ≠ k))) as [->|[Ha Hn]].
    { clear -Hf Hk. destruct Hk as [->|[-> _]]; each_field Hf; auto. }
    - rewrite (location_outcome_validate _ _ Hloc). by eexists.
    - rewrite field_outcome_insert by done.
      destruct (SecurityScheme_init_field m r f Hr Hf) as (o & Ho & _). eauto. }
  destruct (SecurityScheme_init_succeeds _ Hall) as [r' Hr'].
  exists r'. split.
  - apply parse_obj_inl. split; [by rewrite lookup_insert_ne|done].
  - destruct (SecurityScheme_init_field _ r' _ Hr' location_field)
      as (o & Ho & Hl).
    rewrite (location_outcome_validate _ _ Hloc) in Ho. by injection Ho as <-.
Qed.


(** ** [openIdConnectUrl] *)

(** The outcome of the field [openIdConnectUrl] on a text: the URL object
    when the text parses as a URL, the text itself otherwise. *)
Lemma openIdConnectUrl_outcome m s :
  m !! "openIdConnectUrl" = Some (PyStr s) →
  field_outcome Config m (optional_field "openIdConnectUrl" (Union AnyUrlT Str))
  = inl (match AnyUrl_parse s with Some u => Url u | None => Data (PyStr s) end).
Proof.
  intros Hm. unfold field_outcome, field_input. simpl. rewrite Hm. simpl.
  unfold AnyUrl_validate. simpl. by destruct (AnyUrl_parse s).
Qed.

Lemma openIdConnectUrl_accepted t s :
  ∃ r, parse_obj {[ "type" := PyStr t; "openIdConnectUrl" := PyStr s ]} = inl r
       ∧ getattr r "openIdConnectUrl"
         = Some (match AnyUrl_parse s with Some u => Url u | None => Data (PyStr s) end)
       ∧ serialize r !! "openIdConnectUrl"
         = Some (PyStr (match AnyUrl_parse s with Some u => AnyUrl_str u | None => s end)).
Proof.
  set (m := {[ "type" := PyStr t; "openIdConnectUrl" := PyStr s ]}).
  assert (m !! "openIdConnectUrl" = Some (PyStr s)) as Hm by by simplify_map_eq.
  assert (m !! "__pydantic_self__" = None) as Hself by by simplify_map_eq.
  destruct (SecurityScheme_init_succeeds m) as [r Hr].
  { intros f Hf. each_field Hf; try (eexists; vm_compute; reflexivity).
    eexists. by apply openIdConnectUrl_outcome. }
  exists r. split; [by apply parse_obj_inl|].
  assert (optional_field "openIdConnectUrl" (Union AnyUrlT Str) ∈ fields) as Hf
    by (unfold fields; repeat constructor).
  destruct (SecurityScheme_init_field m r _ Hr Hf) as (o & Ho & Hl).
  rewrite (openIdConnectUrl_outcome m s Hm) in Ho. injection Ho as <-.
  split; [done|].
  pose proof (serialize_field m r _ _ Hr Hf Hl) as Hs. simpl in Hs.
  rewrite Hs. by destruct (AnyUrl_parse s).
Qed.

(** An error of a field is reported at the alias of the field. *)
Lemma field_outcome_loc m f e :
  e ∈ outcome_errors (field_outcome Config m f) → loc e = alias f.
Proof.
  unfold field_outcome. destruct (field_input Config m f).1 as [v|]; simpl.
  - destruct (validate f v) as [|es]; simpl; [by intros ?%elem_of_nil|].
    by intros (x & -> & _)%list_elem_of_fmap.
  - destruct (required f); simpl; [|by intros ?%elem_of_nil].
    by intros ->%list_elem_of_singleton.
Qed.

(** A text for [openIdConnectUrl] is never the cause of an error. *)
Lemma openIdConnectUrl_no_error m s es e :
  m !! "openIdConnectUrl" = Some (PyStr s) →
  parse_obj m = inr (ValidationError es) → e ∈ es → loc e ≠ "openIdConnectUrl".
Proof.
  intros Hm [_ [<- _]%SecurityScheme_init_inr]%parse_obj_ValidationError
    (f & Hf & He)%elem_of_loop_errors Hloc.
  rewrite (field_outcome_loc m f e He) in Hloc.
  each_field Hf; try discriminate Hloc.
  rewrite (openIdConnectUrl_outcome m s Hm) in He. by apply elem_of_nil in He.
Qed.

(** C4 ([openIdConnectUrl]): every text is accepted, stored as a URL object
    when it parses as a URL and as the text itself otherwise, and written
    back as text; in no mapping is a text for [openIdConnectUrl] the cause of
    an error.  [https://example.com/openIdConnect], a URL whose text is
    the input itself, is stored as a URL object and [openIdConnect], not a
    URL, as text; both are serialized to the input string. *)
Theorem openIdConnectUrl_url_or_text t u :
  AnyUrl_parse "https://example.com/openIdConnect" = Some u →
  AnyUrl_str u = "https://example.com/openIdConnect" →
  AnyUrl_parse "openIdConnect" = None →
  (∀ s, ∃ r, parse_obj {[ "type" := PyStr t; "openIdConnectUrl" := PyStr s ]} = inl r
          ∧ ((∃ u', AnyUrl_parse s = Some u'
                    ∧ getattr r "openIdConnectUrl" = Some (Url u')
                    ∧ serialize r !! "openIdConnectUrl" = Some (PyStr (AnyUrl_str u')))
             ∨ (AnyUrl_parse s = None
                ∧ getattr r "openIdConnectUrl" = Some (Data (PyStr s))
                ∧ serialize r !! "openIdConnectUrl" = Some (PyStr s))))
  ∧ (∀ m s es e, m !! "openIdConnectUrl" = Some (PyStr s) →
                 parse_obj m = inr (ValidationError es) → e ∈ es →
                 loc e ≠ "openIdConnectUrl")
  ∧ (∃ r, parse_obj {[ "type" := PyStr t;
                       "openIdConnectUrl" := PyStr "https://example.com/openIdConnect" ]}
          = inl r
        ∧ getattr r "openIdConnectUrl" = Some (Url u)
        ∧ serialize r !! "openIdConnectUrl"
          = Some (PyStr "https://example.com/openIdConnect"))
  ∧ (∃ r, parse_obj {[ "type" := PyStr t; "openIdConnectUrl" := PyStr "openIdConnect" ]}
          = inl r
        ∧ getattr r "openIdConnectUrl" = Some (Data (PyStr "openIdConnect"))
        ∧ serialize r !! "openIdConnectUrl" = Some (PyStr "openIdConnect")).
Proof.
  intros Hurl Hstr Htext. split; [|split; [|split]].
  - intros s. destruct (openIdConnectUrl_accepted t s) as (r & Hr & Hg & Hs).
    exists r. split; [done|].
    destruct (AnyUrl_parse s) as [u'|]; [left; by exists u'|by right].
  - apply openIdConnectUrl_no_error.
  - destruct (openIdConnectUrl_accepted t "https://example.com/openIdConnect")
      as (r & Hr & Hg & Hs).
    rewrite Hurl in Hg, Hs. rewrite Hstr in Hs. by exists r.
  - destruct (openIdConnectUrl_accepted t "openIdConnect") as (r & Hr & Hg & Hs).
    rewrite Htext in Hg, Hs. by exists r.
Qed.

(** ** The fields a model was given *)

Lemma validate_field_fields_set config m st f k :
  k ∈ fields_set (validate_field config m st f) ↔
  k ∈ fields_set st ∨ (name f = k ∧ is_Some (field_input config m f).1).
Proof.
  unfold validate_field.
  destruct (field_input config m f) as [[v|] u]; simpl.
  - assert (k ∈ ({[name f]} ∪ fields_set st : gset string)
            ↔ k ∈ fields_set st ∨ (name f = k ∧ is_Some (Some v))) as Hiff.
    { rewrite elem_of_union, elem_of_singleton. split.
      - intros [->|?]; [right; eauto|by left].
      - intros [?|[<- _]]; [by right|by left]. }
    by destruct (validate f v).
  - assert (k ∈ fields_set st
            ↔ k ∈ fields_set st ∨ (name f = k ∧ is_Some (@None pyvalue))) as Hiff.
    { split; [by left|]. by intros [?|[_ [? ?]]]. }
    by destruct (required f).
Qed.

Lemma foldl_fields_set config m fs st k :
  k ∈ fields_set (foldl (validate_field config m) st fs) ↔
  k ∈ fields_set st
  ∨ ∃ f, f ∈ fs ∧ name f = k ∧ is_Some (field_input config m f).1.
Proof.
  revert st. induction fs as [|f fs IH]; intros st; simpl.
  - split; [by left|]. by intros [?|(f & ?%elem_of_nil & _)].
  - rewrite IH, validate_field_fields_set. split.
    + intros [[?|[? ?]]|(f' & ? & ?)]; [by left| |].
      * right. exists f. split; [by left|done].
      * right. exists f'. split; [by right|done].
    + intros [?|(f' & [->|?]%elem_of_cons & ?)]; [by left; left|by left; right|].
      right. by exists f'.
Qed.

Lemma SecurityScheme_init_fields_set m r :
  SecurityScheme_init m = inl r →
  __fields_set__ r
  = fields_set (foldl (validate_field Config m) (mkState ∅ ∅ ∅ []) fields).
Proof.
  rewrite SecurityScheme_init_unfold.
  destruct (loop_errors Config fields m); [|done]. by intros [= <-].
Qed.

(** ** What is serialized *)


(** ** What is not checked *)

(** C6 (conditional requirements are not enforced): a mapping with a
    [type] and nothing else is accepted, whatever the type; a mapping
    accepted with one type is accepted with any other type in its place;
    and construction succeeds exactly when the mapping has no keyword
    [__pydantic_self__] and every field is satisfied on its own, by the
    value the input gives that field alone. *)
Theorem conditional_fields_not_enforced :
  (∀ t, ∃ r, parse_obj {[ "type" := PyStr t ]} = inl r)
  ∧ (∀ m t, (∃ r, parse_obj m = inl r) →
            ∃ r', parse_obj (<["type" := PyStr t]> m) = inl r')
  ∧ (∀ m, (∃ r, parse_obj m = inl r) ↔
          m !! "__pydantic_self__" = None
          ∧ ∀ f, f ∈ fields → ∃ o, field_outcome Config m f = inl o).
Proof.
  split; [|split].
  - intros t. destruct (SecurityScheme_init_succeeds {[ "type" := PyStr t ]})
      as [r Hr].
    { intros f Hf. each_field Hf; eexists; vm_compute; reflexivity. }
    exists r. apply parse_obj_inl. split; [|done]. by simplify_map_eq.
  - intros m t [r [Hself Hr]%parse_obj_inl].
    destruct (SecurityScheme_init_succeeds (<["type" := PyStr t]> m)) as [r' Hr'].
    { intros f Hf. destruct (decide (name f = "type")) as [Heq|Hne].
      + each_field Hf; try discriminate Heq.
        eexists. unfold field_outcome, field_input. simpl.
        rewrite lookup_insert_eq. reflexivity.
      + rewrite field_outcome_insert_type by done.
        destruct (SecurityScheme_init_field m r f Hr Hf) as (o & Ho & _). eauto. }
    exists r'. apply parse_obj_inl. split; [|done]. by rewrite lookup_insert_ne.
  - intros m. split.
    + intros [r [Hself Hr]%parse_obj_inl]. split; [done|]. intros f Hf.
      destruct (SecurityScheme_init_field m r f Hr Hf) as (o & Ho & _). eauto.
    + intros [Hself [r Hr]%SecurityScheme_init_succeeds].
      exists r. by apply parse_obj_inl.
Qed.

(** C7, amended ([type] is text): a constructed model holds for [type] the
    text of the value the input gives [type], whatever that text is; in
    particular every string is accepted as a type. *)
Theorem type_is_text m r :
  parse_obj m = inl r →
  (∃ v s, m !! "type" = Some v ∧ str_validator v = inl s
          ∧ getattr r "type" = Some (Data (PyStr s)))
  ∧ ∀ s, ∃ r', parse_obj {[ "type" := PyStr s ]} = inl r'
               ∧ getattr r' "type" = Some (Data (PyStr s)).
Proof.
  assert (∀ m r, SecurityScheme_init m = inl r →
            ∃ v s, m !! "type" = Some v ∧ str_validator v = inl s
                   ∧ getattr r "type" = Some (Data (PyStr s))) as Htype.
  { clear m r. intros m r Hr.
    destruct (SecurityScheme_init_field m r (required_field "type" Str) Hr)
      as (o & Ho & Hl); [unfold fields; repeat constructor|].
    unfold field_outcome in Ho. rewrite field_input_plain in Ho by done.
    simpl in Ho, Hl.
    destruct (m !! "type") as [v|]; [|done].
    destruct (validate _ v) as [o'|] eqn:Hv; [|done]. injection Ho as ->.
    destruct (validate_Str _ _ _ Hv eq_refl) as [[-> _]|(_ & s & Hs & ->)].
    - discriminate Hv.
    - by exists v, s. }
  intros [_ Hr]%parse_obj_inl. split; [by apply Htype|].
  intros s. destruct (SecurityScheme_init_succeeds {[ "type" := PyStr s ]})
    as [r' Hr'].
  { intros f Hf. each_field Hf; eexists; vm_compute; reflexivity. }
  exists r'. split; [apply parse_obj_inl; split; [by simplify_map_eq|done]|].
  destruct (Htype _ _ Hr') as (v & s' & Hv & Hs' & Hg).
  rewrite lookup_singleton_eq in Hv. injection Hv as <-. simpl in Hs'.
  congruence.
Qed.

(** The values [str_validator] refuses: [None], a list, a mapping, and an
    [int] of more digits than [str()] writes. *)
Lemma str_validator_refuses v :
  (∃ e, str_validator v = inr e) ↔
  match v with
  | PyNone | PyList _ | PyDict _ => True
  | PyInt z => (0 < int_max_str_digits ∧ 10 ^ int_max_str_digits ≤ Z.abs z)%Z
  | PyBool _ | PyFloat _ | PyStr _ => False
  end.
Proof.
  destruct v as [|b|z|x|s|l|d]; simpl;
    try (split; [done|by eexists]); try (split; [by intros [? ?]|done]).
  rewrite <- int_str_refuses. split; [|by eexists].
  intros [e He]. by rewrite (int_str_inr z e He) in He.
Qed.

(** C8, amended (the location is text): in a constructed model the location
    is [None] or a text, and a string given under [in] is held as it is,
    whatever it is; a mapping that is accepted is accepted with any string
    under [in].  In a mapping without the keyword [__pydantic_self__], a
    value under [in] that is not [None] and that [str_validator] refuses is
    refused with the error of [str_validator] at [in], and no other value
    under [in] is the cause of an error at [in]; [str_validator] refuses a
    list, a mapping and an [int] of more digits than [str()] writes, and
    nothing else that is not [None]. *)
Theorem location_is_text m r :
  parse_obj m = inl r →
  (getattr r "security_scheme_in" = Some (Data PyNone)
   ∨ ∃ s, getattr r "security_scheme_in" = Some (Data (PyStr s)))
  ∧ (∀ s, m !! "in" = Some (PyStr s) →
          getattr r "security_scheme_in" = Some (Data (PyStr s)))
  ∧ (∀ s, ∃ r', parse_obj (<["in" := PyStr s]> m) = inl r'
                ∧ getattr r' "security_scheme_in" = Some (Data (PyStr s)))
  ∧ (∀ m' v, m' !! "in" = Some v → m' !! "__pydantic_self__" = None →
       (∀ e, v ≠ PyNone → str_validator v = inr e →
          ∃ es, parse_obj m' = inr (ValidationError es) ∧ mkError e "in" ∈ es)
       ∧ (∀ es e, parse_obj m' = inr (ValidationError es) → e ∈ es →
            loc e = "in" → v ≠ PyNone ∧ str_validator v = inr (exc e)))
  ∧ (∀ v, v ≠ PyNone →
          (∃ e, str_validator v = inr e) ↔
          match v with
          | PyList _ | PyDict _ => True
          | PyInt z =>
              (0 < int_max_str_digits ∧ 10 ^ int_max_str_digits ≤ Z.abs z)%Z
          | _ => False
          end).
Proof.
  intros Hm. pose proof Hm as [_ Hr]%parse_obj_inl.
  destruct (SecurityScheme_init_field m r _ Hr location_field) as (o & Ho & Hl).
  simpl in Hl. unfold field_outcome in Ho.
  split; [|split; [|split; [|split]]].
  - destruct (field_input _ m _).1 as [v|]; [|injection Ho as <-; by left].
    destruct (validate _ v) as [o'|] eqn:Hv; [|done]. injection Ho as ->.
    destruct (validate_Str _ _ _ Hv eq_refl) as [[_ ->]|(_ & s & _ & ->)]; [by left|].
    right. by exists s.
  - intros s Hs. rewrite (field_input_alias _ m _ (PyStr s)) in Ho by done.
    by injection Ho as <-.
  - intros s. apply location_string_accepted; [by left|by exists r].
  - intros m' v Hv Hself.
    assert (field_outcome Config m'
              (with_alias "in" (optional_field "security_scheme_in" Str))
            = match validate (with_alias "in"
                                (optional_field "security_scheme_in" Str)) v with
              | inl o => inl o
              | inr es => inr ((λ e, mkError e "in") <$> es)
              end) as Hout.
    { apply location_outcome_validate. unfold location_input. by rewrite Hv. }
    split.
    + intros e Hnone Hstr.
      rewrite (validate_Str_inr _ v e) in Hout by done.
      destruct (SecurityScheme_init m') as [r'|es] eqn:Hr'.
      { destruct (SecurityScheme_init_field m' r' _ Hr' location_field)
          as (o' & Ho' & _). congruence. }
      exists es. split; [by apply parse_obj_ValidationError|].
      apply SecurityScheme_init_inr in Hr' as [<- _].
      apply elem_of_loop_errors. eexists. split; [exact location_field|].
      rewrite Hout. by left.
    + intros es e [_ [<- _]%SecurityScheme_init_inr]%parse_obj_ValidationError
        (f & Hf & He)%elem_of_loop_errors Hloc.
      rewrite (field_outcome_loc m' f e He) in Hloc.
      each_field Hf; try discriminate Hloc. clear Hloc.
      rewrite Hout in He.
      destruct (validate _ v) as [o'|es'] eqn:Hval; simpl in He;
        [by apply elem_of_nil in He|].
      apply list_elem_of_fmap in He as (x & -> & Hx). simpl.
      assert (v ≠ PyNone) as Hnone by (intros ->; discriminate Hval).
      split; [done|].
      destruct (str_validator v) as [s|e'] eqn:Hstr.
      * by rewrite (validate_Str_inl _ v s) in Hval.
      * rewrite (validate_Str_inr _ v e') in Hval by done.
        injection Hval as <-. by apply list_elem_of_singleton in Hx as ->.
  - intros v Hv. rewrite str_validator_refuses. by destruct v.
Qed.

(** ** [flows] *)

Lemma flows_field : optional_field "flows" OAuthFlowsT ∈ fields.
Proof. unfold fields. repeat constructor. Qed.

(** C9, amended ([flows] given a scalar): a mapping that gives [flows] a
    boolean, a number or a string that is not empty never constructs a
    model: it is refused with an invalid value (a [DictError]) at [flows]
    when it has no keyword [__pydantic_self__], and with the [TypeError] of
    that keyword when it has.  A mapping that gives [flows] the value [None]
    has the result of the mapping without [flows], and a model constructed
    from it has [flows] unset. *)
Theorem flows_scalar_fails m v :
  m !! "flows" = Some v →
  (match v with
   | PyBool _ | PyInt _ | PyFloat _ => True
   | PyStr s => s ≠ ""
   | _ => False
   end →
   (∀ r, parse_obj m ≠ inl r)
   ∧ (m !! "__pydantic_self__" = None →
      ∃ es, parse_obj m = inr (ValidationError es)
            ∧ mkError DictError "flows" ∈ es)
   ∧ (is_Some (m !! "__pydantic_self__") → parse_obj m = inr TypeError))
  ∧ (v = PyNone →
     agree (parse_obj m) (parse_obj (delete "flows" m))
     ∧ ∀ r, parse_obj m = inl r → getattr r "flows" = Some (Data PyNone)).
Proof.
  intros Hm. split.
  - intros Hv.
    assert (mkError DictError "flows" ∈ loop_errors Config fields m) as He.
    { apply elem_of_loop_errors. exists (optional_field "flows" OAuthFlowsT).
      split; [exact flows_field|].
      unfold field_outcome. rewrite (field_input_alias _ m _ v) by done.
      destruct v as [| | | |[|a s]| |]; try done; simpl; by left. }
    assert (∃ es, SecurityScheme_init m = inr es
                  ∧ mkError DictError "flows" ∈ es) as (es & Hes & Hin).
    { rewrite SecurityScheme_init_unfold.
      destruct (loop_errors Config fields m) as [|e es];
        [by apply elem_of_nil in He|]. by eexists. }
    split; [|split].
    + intros r [_ Hr]%parse_obj_inl. congruence.
    + intros Hk. exists es. split; [|done]. by apply parse_obj_ValidationError.
    + by intros ?%parse_obj_TypeError.
  - intros ->.
    assert (field_outcome Config m (optional_field "flows" OAuthFlowsT)
            = inl (Data PyNone)) as Hout.
    { unfold field_outcome. by rewrite (field_input_alias _ m _ PyNone). }
    split.
    + apply parse_obj_agree; [by rewrite lookup_delete_ne|].
      apply SecurityScheme_init_agree. intros f Hf.
      unfold field_outcome, field_input.
      each_field Hf; simpl;
        rewrite ?lookup_delete_eq, ?lookup_delete_ne by done;
        rewrite ?Hm; done.
    + intros r [_ Hr]%parse_obj_inl.
      destruct (SecurityScheme_init_field m r _ Hr flows_field) as (o & Ho & Hl).
      rewrite Hout in Ho. by injection Ho as <-.
Qed.


(** ** Which mappings are accepted *)

Lemma validate_given f v :
  v ≠ PyNone → validate f v = validate_singleton (type_ f) v.
Proof. by destruct v. Qed.

Lemma optional_text_given v :
  v ≠ PyNone → optional_text (Some v) ↔ ∃ s, str_validator v = inl s.
Proof. by destruct v. Qed.

Lemma optional_Str_validate f v :
  type_ f = Str → allow_none f = true →
  (∃ o, validate f v = inl o) ↔ optional_text (Some v).
Proof.
  intros Ht Hn.
  assert (v = PyNone ∨ v ≠ PyNone) as [->|Hv] by (destruct v; auto).
  - unfold validate. rewrite Hn. simpl. split; eauto.
  - rewrite optional_text_given by done. split.
    + intros [o Ho].
      destruct (validate_Str _ _ _ Ho Ht) as [[? _]|(_ & s & Hs & _)]; [done|eauto].
    + intros [s Hs]. rewrite (validate_Str_inl f v s) by done. eauto.
Qed.

Lemma optional_Str_outcome m k :
  (∃ o, field_outcome Config m (optional_field k Str) = inl o)
  ↔ optional_text (m !! k).
Proof.
  unfold field_outcome. rewrite field_input_plain by done.
  change (alias (optional_field k Str)) with k.
  destruct (m !! k) as [v|]; [|by split; eauto].
  rewrite <- (optional_Str_validate (optional_field k Str) v) by done.
  destruct (validate _ v); split; eauto; by intros [? ?].
Qed.

Lemma location_outcome_input m :
  (field_input Config m (with_alias "in" (optional_field "security_scheme_in" Str))).1
  = location_input m.
Proof. unfold field_input, location_input. simpl. by destruct (m !! "in"). Qed.

Lemma location_outcome m :
  (∃ o, field_outcome Config m
          (with_alias "in" (optional_field "security_scheme_in" Str)) = inl o)
  ↔ optional_text (location_input m).
Proof.
  unfold field_outcome. rewrite location_outcome_input.
  destruct (location_input m) as [v|]; [|by split; eauto].
  rewrite <- (optional_Str_validate
                (with_alias "in" (optional_field "security_scheme_in" Str)) v)
    by done.
  destruct (validate _ v); split; eauto; by intros [? ?].
Qed.

Lemma type_outcome m :
  (∃ o, field_outcome Config m (required_field "type" Str) = inl o)
  ↔ ∃ v s, m !! "type" = Some v ∧ str_validator v = inl s.
Proof.
  unfold field_outcome. rewrite field_input_plain by done.
  change (alias (required_field "type" Str)) with "type".
  destruct (m !! "type") as [v|].
  - split.
    + intros [o Ho]. destruct (validate _ v) as [o'|] eqn:Hv; [|done].
      destruct (validate_Str _ _ _ Hv eq_refl) as [[-> _]|(_ & s & Hs & _)];
        [discriminate Hv|]. by exists v, s.
    + intros (? & s & [= <-] & Hs).
      assert (v ≠ PyNone) as Hv by (intros ->; discriminate Hs).
      rewrite (validate_Str_inl _ v s) by done. eauto.
  - split; [by intros [? ?]|by intros (? & ? & ? & _)].
Qed.

Lemma validate_flows v :
  v ≠ PyNone →
  validate (optional_field "flows" OAuthFlowsT) v
  = match OAuthFlows_validate v with
    | inl fl => inl (Model fl)
    | inr e => inr [e]
    end.
Proof. by destruct v. Qed.

Lemma flows_outcome m :
  (∃ o, field_outcome Config m (optional_field "flows" OAuthFlowsT) = inl o)
  ↔ match m !! "flows" with
    | None | Some PyNone => True
    | Some v => ∃ fl, OAuthFlows_validate v = inl fl
    end.
Proof.
  unfold field_outcome. rewrite field_input_plain by done.
  change (alias (optional_field "flows" OAuthFlowsT)) with "flows".
  destruct (m !! "flows") as [v|]; [|by split; eauto].
  assert (v = PyNone ∨ v ≠ PyNone) as [->|Hv] by (destruct v; auto).
  { split; eauto. }
  rewrite (validate_flows v Hv).
  destruct (OAuthFlows_validate v) as [fl|e]; destruct v; try done;
    split; eauto; by intros [? ?].
Qed.

Lemma openIdConnectUrl_field_outcome m :
  (∃ o, field_outcome Config m
          (optional_field "openIdConnectUrl" (Union AnyUrlT Str)) = inl o)
  ↔ optional_text (m !! "openIdConnectUrl").
Proof.
  unfold field_outcome. rewrite field_input_plain by done.
  change (alias (optional_field "openIdConnectUrl" (Union AnyUrlT Str)))
    with "openIdConnectUrl".
  destruct (m !! "openIdConnectUrl") as [v|]; [|by split; eauto].
  assert (v = PyNone ∨ v ≠ PyNone) as [->|Hv] by (destruct v; auto).
  { split; [done|]. intros _. by eexists. }
  rewrite optional_text_given, validate_given by done.
  cbn [type_ optional_field validate_singleton]. unfold AnyUrl_validate.
  destruct (str_validator v) as [s|e].
  - split; [by eauto|]. intros _. destruct (AnyUrl_parse s); eauto.
  - split; [by intros [? ?]|by intros [? ?]].
Qed.

(** X1 (what is accepted): construction succeeds exactly when the mapping
    has no keyword [__pydantic_self__], [type] is given a value
    [str_validator] accepts, each of [description], [name], the location,
    [scheme], [bearerFormat] and [openIdConnectUrl] is absent, [None] or
    such a value, and [flows] is absent, [None] or a value the nested model
    validates. *)
Theorem accepted_iff m :
  (∃ r, parse_obj m = inl r) ↔
  m !! "__pydantic_self__" = None
  ∧ (∃ v s, m !! "type" = Some v ∧ str_validator v = inl s)
  ∧ optional_text (m !! "description")
  ∧ optional_text (m !! "name")
  ∧ optional_text (location_input m)
  ∧ optional_text (m !! "scheme")
  ∧ optional_text (m !! "bearerFormat")
  ∧ match m !! "flows" with
    | None | Some PyNone => True
    | Some v => ∃ fl, OAuthFlows_validate v = inl fl
    end
  ∧ optional_text (m !! "openIdConnectUrl").
Proof.
  rewrite <- type_outcome, <- openIdConnectUrl_field_outcome,
    <- location_outcome, <- flows_outcome, <- !optional_Str_outcome.
  split.
  - intros [r [Hself Hr]%parse_obj_inl]. split; [done|].
    assert (∀ f, f ∈ fields → ∃ o, field_outcome Config m f = inl o) as Hall.
    { intros f Hf.
      destruct (SecurityScheme_init_field m r f Hr Hf) as (o & Ho & _). eauto. }
    repeat split; apply Hall; unfold fields; repeat constructor.
  - intros (Hself & H1 & H2 & H3 & H4 & H5 & H6 & H7 & H8).
    destruct (SecurityScheme_init_succeeds m) as [r Hr].
    { intros f Hf. by each_field Hf. }
    exists r. by apply parse_obj_inl.
Qed.

(** ** The attributes of a model *)

Lemma validate_singleton_has_type t v o :
  validate_singleton t v = inl o → has_type t o.
Proof.
  revert o. induction t as [| | |a IHa b IHb]; intros o; simpl.
  - destruct (str_validator v); intros [= <-]. eauto.
  - destruct (AnyUrl_validate v); intros [= <-]. eauto.
  - destruct (OAuthFlows_validate v); intros [= <-]. eauto.
  - destruct (validate_singleton a v); [intros [= <-]; left; by apply IHa|].
    destruct (validate_singleton b v); [intros [= <-]; right; by apply IHb|done].
Qed.

Lemma validate_well_typed f v o : validate f v = inl o → well_typed f o.
Proof.
  unfold validate, well_typed.
  destruct v; try (right; by eapply validate_singleton_has_type).
  destruct (allow_none f); [|done]. intros [= <-]. by left.
Qed.

(** X2 (declared types): a constructed model has the eight declared
    attributes and no other, and each holds a value of the type its field
    is annotated with, [None] only where the annotation is [Optional]. *)
Theorem attributes_well_typed m r :
  parse_obj m = inl r →
  (∀ k, is_Some (getattr r k) ↔ k ∈ name <$> fields)
  ∧ ∀ f, f ∈ fields → ∃ o, getattr r (name f) = Some o ∧ well_typed f o.
Proof.
  intros [_ Hr]%parse_obj_inl.
  assert (∀ f, f ∈ fields → ∃ o, getattr r (name f) = Some o ∧ well_typed f o)
    as Hall.
  { intros f Hf. destruct (SecurityScheme_init_field m r f Hr Hf) as (o & Ho & Hl).
    exists o. split; [done|]. unfold field_outcome in Ho.
    destruct (field_input Config m f).1 as [v|].
    - destruct (validate f v) as [o'|] eqn:Hv; [|done]. injection Ho as ->.
      by eapply validate_well_typed.
    - destruct (required f) eqn:Hreq; [done|]. injection Ho as <-.
      left. clear -Hf Hreq. by each_field Hf. }
  split; [|done]. intros k. split.
  - intros Hk. destruct (decide (k ∈ name <$> fields)) as [|Hout]; [done|].
    unfold getattr in Hk. rewrite (SecurityScheme_init_other m r k Hr Hout) in Hk.
    by destruct Hk.
  - intros (f & Hf & <-)%field_of_name. destruct (Hall f Hf) as (o & -> & _).
    by eexists.
Qed.

(** ** The errors of a refused mapping *)

Lemma str_validator_kinds v e :
  str_validator v = inr e → e ≠ MissingError ∧ e ≠ ExtraError.
Proof.
  destruct v; simpl; try (by intros [= <-]).
  unfold int_str. case_match; by intros [= <-].
Qed.

Lemma OAuthFlows_validate_kinds v e :
  OAuthFlows_validate v = inr e → e ≠ MissingError ∧ e ≠ ExtraError.
Proof.
  assert (∀ d, OAuthFlows_call d = inr e → e ≠ MissingError ∧ e ≠ ExtraError)
    as Hcall.
  { intros d. unfold OAuthFlows_call.
    destruct (OAuthFlows_init d); [done|]. intros [= <-]. by case_bool_decide. }
  unfold OAuthFlows_validate.
  destruct v; try apply Hcall;
    (destruct (dict_of_iterable _) as [kvs|]; [|by intros [= <-]];
     destruct (keywords kvs []); [apply Hcall|by intros [= <-]]).
Qed.

Lemma validate_singleton_kinds t v es e :
  validate_singleton t v = inr es → e ∈ es → e ≠ MissingError ∧ e ≠ ExtraError.
Proof.
  revert es. induction t as [| | |a IHa b IHb]; intros es; simpl.
  - destruct (str_validator v) as [s|e'] eqn:Hs;
      intros [= <-] ->%list_elem_of_singleton.
    by eapply str_validator_kinds.
  - unfold AnyUrl_validate. destruct (str_validator v) as [s|e'] eqn:Hs;
      [destruct (AnyUrl_parse s)|];
      intros [= <-] ->%list_elem_of_singleton; [done|].
    by eapply str_validator_kinds.
  - destruct (OAuthFlows_validate v) as [|e'] eqn:Hv;
      intros [= <-] ->%list_elem_of_singleton.
    by eapply OAuthFlows_validate_kinds.
  - destruct (validate_singleton a v) as [|ea]; [done|].
    destruct (validate_singleton b v) as [|eb]; [done|].
    intros [= <-] [?|?]%elem_of_app; eauto.
Qed.

Lemma validate_kinds f v es e :
  validate f v = inr es → e ∈ es → e ≠ MissingError ∧ e ≠ ExtraError.
Proof.
  unfold validate. destruct v; eauto using validate_singleton_kinds.
  destruct (allow_none f); intros [= <-] ->%list_elem_of_singleton; done.
Qed.

(** An error of a field: a [MissingError] when the field is required and
    the input has nothing for it, the error of a validator otherwise. *)
Lemma field_outcome_error m f e :
  e ∈ outcome_errors (field_outcome Config m f) →
  loc e = alias f ∧ exc e ≠ ExtraError
  ∧ (exc e = MissingError → required f = true ∧ (field_input Config m f).1 = None).
Proof.
  intros He. split; [by eapply field_outcome_loc|]. revert He.
  unfold field_outcome. destruct (field_input Config m f).1 as [v|]; simpl.
  - destruct (validate f v) as [|es] eqn:Hv; simpl; [by intros ?%elem_of_nil|].
    intros (x & -> & Hx)%list_elem_of_fmap. simpl.
    destruct (validate_kinds f v es x Hv Hx). by split.
  - destruct (required f); simpl; [|by intros ?%elem_of_nil].
    by intros ->%list_elem_of_singleton.
Qed.

(** X3 (what a refused mapping raises): a mapping is refused with a
    [TypeError] exactly when it has the keyword [__pydantic_self__], and
    otherwise with a [ValidationError] that has at least one error; every
    error is located at the wire name of a declared field, a missing-value
    error only at [type]; and every error of every failing field is reported,
    whatever else fails. *)
Theorem errors_reported m e :
  parse_obj m = inr e →
  match e with
  | TypeError => is_Some (m !! "__pydantic_self__")
  | ValidationError es =>
      m !! "__pydantic_self__" = None
      ∧ es ≠ []
      ∧ (∀ e, e ∈ es →
           loc e ∈ alias <$> fields ∧ exc e ≠ ExtraError
           ∧ (exc e = MissingError → loc e = "type" ∧ m !! "type" = None))
      ∧ (∀ f v es' e', f ∈ fields → (field_input Config m f).1 = Some v →
           validate f v = inr es' → e' ∈ es' → mkError e' (alias f) ∈ es)
  end.
Proof.
  destruct e as [es|]; [|by intros ?%parse_obj_TypeError].
  intros [Hself [<- Hne]%SecurityScheme_init_inr]%parse_obj_ValidationError.
  split; [done|]. split; [done|]. split.
  - intros e (f & Hf & He)%elem_of_loop_errors.
    destruct (field_outcome_error m f e He) as (-> & Hx & Hmiss).
    split; [by apply list_elem_of_fmap_2|]. split; [done|].
    intros [Hreq Hin]%Hmiss. clear He Hmiss Hne.
    each_field Hf; try discriminate Hreq.
    split; [done|]. by rewrite field_input_plain in Hin.
  - intros f v es' e' Hf Hin Hv He'. apply elem_of_loop_errors.
    exists f. split; [done|]. unfold field_outcome. rewrite Hin, Hv. simpl.
    by apply (list_elem_of_fmap_2 (λ e, mkError e (alias f))).
Qed.

(** X4 ([type] given but unusable): in a mapping without the keyword
    [__pydantic_self__], a [type] that [str_validator] refuses ([None], a
    list, a mapping, an [int] too long for [str()]) is refused with the
    error of that value at [type] ([NoneIsNotAllowedError] for [None], the
    error of [str_validator] otherwise), and is not reported as missing. *)
Theorem type_unusable m v e :
  m !! "type" = Some v → str_validator v = inr e →
  m !! "__pydantic_self__" = None →
  ∃ es, parse_obj m = inr (ValidationError es)
        ∧ mkError (match v with PyNone => NoneIsNotAllowedError | _ => e end)
                  "type" ∈ es
        ∧ mkError MissingError "type" ∉ es.
Proof.
  intros Hm Hv Hself.
  assert (field_outcome Config m (required_field "type" Str)
          = inr [mkError (match v with PyNone => NoneIsNotAllowedError
                                     | _ => e end) "type"]) as Ho.
  { unfold field_outcome. rewrite field_input_plain by done.
    change (alias (required_field "type" Str)) with "type". rewrite Hm.
    assert (v = PyNone ∨ v ≠ PyNone) as [->|Hnone] by (destruct v; auto);
      [done|].
    rewrite (validate_Str_inr _ v e) by done. by destruct v. }
  assert (required_field "type" Str ∈ fields) as Hf
    by (unfold fields; repeat constructor).
  destruct (SecurityScheme_init m) as [r|es] eqn:Hr.
  { destruct (SecurityScheme_init_field m r _ Hr Hf) as (o & Ho' & _). congruence. }
  exists es. split; [by apply parse_obj_ValidationError|].
  apply SecurityScheme_init_inr in Hr as [<- _]. split.
  - apply elem_of_loop_errors. eexists. split; [exact Hf|].
    rewrite Ho. by left.
  - intros (f & Hf' & He)%elem_of_loop_errors.
    destruct (field_outcome_error m f _ He) as (_ & _ & Hmiss).
    destruct (Hmiss eq_refl) as [Hreq Hin]. clear He Hmiss.
    each_field Hf'; try discriminate Hreq.
    rewrite field_input_plain in Hin by done. simpl in Hin. congruence.
Qed.

(** X5 (text fields): in an accepted mapping, the value under the wire name
    of a [str] field is stored as the text [str_validator] makes of it (a
    number or a boolean as its [str()]), and serialized as that text. *)
Theorem text_is_stored m r f v s :
  parse_obj m = inl r → f ∈ fields → type_ f = Str →
  m !! alias f = Some v → str_validator v = inl s →
  getattr r (name f) = Some (Data (PyStr s))
  ∧ serialize r !! alias f = Some (PyStr s).
Proof.
  intros [_ Hr]%parse_obj_inl Hf Ht Hm Hs.
  destruct (SecurityScheme_init_field m r f Hr Hf) as (o & Ho & Hl).
  unfold field_outcome in Ho. rewrite (field_input_alias _ m f v Hm) in Ho.
  simpl in Ho.
  assert (v ≠ PyNone) as Hnone by (intros ->; discriminate Hs).
  rewrite (validate_Str_inl f v s) in Ho by done.
  injection Ho as <-. split; [done|].
  by rewrite (serialize_field m r f _ Hr Hf Hl).
Qed.

(** ** Inputs that construct the same model *)

(** X6 ([None] is absence): for an [Optional] field, a mapping that gives
    [None] under the wire name and the mapping without that key are refused
    with the same exception or construct equal models (for the location,
    when [security_scheme_in] is not given either). *)
Theorem null_is_absent m f :
  f ∈ fields → required f = false → m !! alias f = Some PyNone →
  (alt_alias f = true → m !! name f = None) →
  agree (parse_obj m) (parse_obj (delete (alias f) m)).
Proof.
  intros Hf Hreq Hnull Hname.
  assert (alias f ≠ "__pydantic_self__") as Hself
    by (clear -Hf; by each_field Hf).
  apply parse_obj_agree; [by rewrite lookup_delete_ne|].
  clear Hself. apply SecurityScheme_init_agree. intros f' Hf'.
  unfold field_outcome, field_input.
  each_field Hf; try discriminate Hreq; simpl in Hnull, Hname |- *;
    try specialize (Hname eq_refl);
    each_field Hf'; simpl;
    rewrite ?lookup_delete_eq, ?lookup_delete_ne by done;
    rewrite ?Hnull, ?Hname; simpl; rewrite ?Hname; done.
Qed.

(** X7 ([in] before the field name): when the wire key [in] is given, a
    value under [security_scheme_in] is not read: without it the result is
    the same. *)
Theorem in_takes_precedence m v :
  m !! "in" = Some v →
  parse_obj (delete "security_scheme_in" m) = parse_obj m.
Proof.
  intros Hm. apply parse_obj_ext; [by rewrite lookup_delete_ne|].
  apply SecurityScheme_init_ext. intros f Hf.
  each_field Hf;
    try (rewrite !field_input_plain by done; simpl;
         by rewrite lookup_delete_ne).
  unfold field_input. simpl. by rewrite lookup_delete_ne, Hm.
Qed.


(** ** Mappings in wire form *)

Lemma wire_value_not_None t v : wire_value t v → v ≠ PyNone.
Proof.
  induction t as [| | |a IHa b IHb]; simpl.
  - by intros [s ->].
  - by intros (s & u & -> & _).
  - by intros (d & fl & -> & _).
  - intros [?|[_ ?]]; eauto.
Qed.

Lemma wire_value_validates t v :
  wire_value t v →
  ∃ o, validate_singleton t v = inl o ∧ jsonable true true o = v.
Proof.
  induction t as [| | |a IHa b IHb]; simpl.
  - intros [s ->]. by eexists.
  - intros (s & u & -> & Hs & Hu). exists (Url u).
    unfold AnyUrl_validate. simpl. rewrite Hs. simpl. by rewrite Hu.
  - intros (d & fl & -> & Hd & Hfl). exists (Model fl).
    simpl. unfold OAuthFlows_call. rewrite Hd. simpl. by rewrite Hfl.
  - intros [Ha|[[es Hes] Hb]].
    + destruct (IHa Ha) as (o & -> & Ho). by exists o.
    + destruct (IHb Hb) as (o & Hv & Ho). exists o. by rewrite Hes, Hv.
Qed.

Lemma not_alias_security_scheme_in : "security_scheme_in" ∉ alias <$> fields.
Proof. apply (bool_decide_unpack _). by vm_compute. Qed.

Lemma field_of_alias k : k ∈ alias <$> fields → ∃ f, f ∈ fields ∧ alias f = k.
Proof. intros (f & -> & Hf)%list_elem_of_fmap. eauto. Qed.

Lemma canonical_parse_serialize m :
  canonical m → ∃ r, parse_obj m = inl r ∧ serialize r = m.
Proof.
  intros (Htype & Hdom & Hval).
  assert (m !! "__pydantic_self__" = None) as Hself.
  { apply eq_None_not_Some. intros Hs%Hdom. revert Hs.
    apply (bool_decide_unpack _). by vm_compute. }
  assert (m !! "security_scheme_in" = None) as Hssi.
  { apply eq_None_not_Some. intros Hs%Hdom.
    by apply not_alias_security_scheme_in. }
  assert (∀ f, f ∈ fields →
            ∃ o, field_outcome Config m f = inl o
                 ∧ (if is_None o then None else Some (jsonable true true o))
                   = m !! alias f) as Hall.
  { intros f Hf. unfold field_outcome.
    destruct (m !! alias f) as [v|] eqn:Hv.
    - rewrite (field_input_alias _ m f v Hv). simpl.
      pose proof (Hval f v Hf Hv) as Hw.
      destruct (wire_value_validates _ _ Hw) as (o & Ho & Hj).
      exists o. rewrite validate_given, Ho by by eapply wire_value_not_None.
      split; [done|]. by rewrite (validate_singleton_not_None _ _ _ Ho), Hj.
    - rewrite field_input_None; [|done|].
      + exists (Data PyNone). clear Hdom Hval.
        each_field Hf; try done. simpl in Hv. rewrite Hv in Htype.
        by destruct Htype.
      + clear Hdom Hval. by each_field Hf. }
  destruct (SecurityScheme_init_succeeds m) as [r Hr].
  { intros f Hf. destruct (Hall f Hf) as (o & Ho & _). eauto. }
  exists r. split; [by apply parse_obj_inl|]. apply map_eq. intros k.
  destruct (decide (k ∈ alias <$> fields)) as [Hin|Hout].
  - apply field_of_alias in Hin as (f & Hf & <-).
    destruct (Hall f Hf) as (o & Ho & <-).
    destruct (SecurityScheme_init_field m r f Hr Hf) as (o' & Ho' & Hl).
    assert (o' = o) as -> by congruence.
    by apply (serialize_field m).
  - transitivity (@None pyvalue).
    + apply eq_None_not_Some.
      intros [v (f & o & Hf & -> & _)%(serialize_only_fields m)]; [|done].
      apply Hout. by apply list_elem_of_fmap_2.
    + symmetry. apply eq_None_not_Some. by intros ?%Hdom.
Qed.

(** X9 (wire form is kept): a mapping in wire form is accepted and
    serialized back to itself, entry for entry. *)
Theorem canonical_fixed m :
  canonical m → ∃ r, parse_obj m = inl r ∧ serialize r = m.
Proof. apply canonical_parse_serialize. Qed.

(** The keys of an example are wire names. *)
Ltac example_keys m :=
  let k := fresh "k" in
  let Hk := fresh "Hk" in
  intros k Hk%elem_of_dom;
  apply (elem_of_list_to_set (C := gset string));
  revert k Hk;
  change (dom m ⊆ (list_to_set (alias <$> fields) : gset string));
  apply (bool_decide_unpack _); by vm_compute.

(** The values of an example: one goal for each field the example gives. *)
Ltac example_values Hf Hv :=
  each_field Hf; vm_compute in Hv; try discriminate Hv; injection Hv as <-.

(** X14 (the examples of [schema_extra]): each of the six examples is
    accepted and serialized back to itself, provided the nested model
    accepts the [flows] of the fourth and writes it back as it is,
    [https://example.com/openIdConnect] is a URL with that text, and
    [openIdConnect] is not a URL. *)
Theorem examples_fixed fl u :
  example_oauth2 !! "flows" = Some (PyDict (OAuthFlows_dict true true fl)) →
  OAuthFlows_init (OAuthFlows_dict true true fl) = Some fl →
  AnyUrl_parse "https://example.com/openIdConnect" = Some u →
  AnyUrl_str u = "https://example.com/openIdConnect" →
  AnyUrl_parse "openIdConnect" = None →
  Forall (λ m, ∃ r, parse_obj m = inl r ∧ serialize r = m) examples.
Proof.
  intros Hflows Hinit Hurl Hstr Htext.
  assert (Forall canonical examples) as Hall.
  { unfold examples.
    apply Forall_cons_2; [|apply Forall_cons_2; [|apply Forall_cons_2;
      [|apply Forall_cons_2; [|apply Forall_cons_2; [|apply Forall_cons_2;
        [|apply Forall_nil_2]]]]]].
    - split; [by eexists|]. split; [example_keys example_http_basic|].
      intros f v Hf Hv. example_values Hf Hv; by eexists.
    - split; [by eexists|]. split; [example_keys example_apiKey|].
      intros f v Hf Hv. example_values Hf Hv; by eexists.
    - split; [by eexists|]. split; [example_keys example_http_bearer|].
      intros f v Hf Hv. example_values Hf Hv; by eexists.
    - split; [by eexists|]. split; [example_keys example_oauth2|].
      intros f v Hf Hv. destruct (decide (alias f = "flows")) as [Heq|Hne].
      + rewrite Heq, Hflows in Hv. injection Hv as <-. clear Hflows.
        each_field Hf; try discriminate Heq.
        by exists (OAuthFlows_dict true true fl), fl.
      + clear Hflows. each_field Hf; try (by destruct Hne);
          vm_compute in Hv; try discriminate Hv; injection Hv as <-; by eexists.
    - split; [by eexists|]. split; [example_keys example_openIdConnect|].
      intros f v Hf Hv. example_values Hf Hv; [by eexists|].
      left. by exists "https://example.com/openIdConnect", u.
    - split; [by eexists|]. split; [example_keys example_relative_path|].
      intros f v Hf Hv. example_values Hf Hv; [by eexists|].
      right. split; [|by eexists]. simpl. unfold AnyUrl_validate. simpl.
      rewrite Htext. by eexists. }
  eapply Forall_impl; [exact Hall|]. apply canonical_parse_serialize.
Qed.

(** X12 ([dict()] without [exclude_none]): every field of a constructed
    model is written, under its name or with [by_alias] under its alias,
    a field the input does not give as [None]; and nothing else is. *)
Theorem dict_writes_every_field ba m r :
  parse_obj m = inl r →
  (∀ f, f ∈ fields →
     ∃ o, getattr r (name f) = Some o
          ∧ dict fields ba false r !! (if ba then alias f else name f)
            = Some (jsonable ba false o))
  ∧ (∀ f, f ∈ fields → m !! alias f = None → m !! name f = None →
          dict fields ba false r !! (if ba then alias f else name f) = Some PyNone)
  ∧ (∀ k, is_Some (dict fields ba false r !! k) →
          ∃ f, f ∈ fields ∧ k = if ba then alias f else name f).
Proof.
  intros [_ Hr]%parse_obj_inl. split; [|split].
  - intros f Hf. destruct (SecurityScheme_init_field m r f Hr Hf) as (o & _ & Hl).
    exists o. split; [done|]. exact (dict_field ba false m r f o Hr Hf Hl).
  - intros f Hf Ha Hn. destruct (SecurityScheme_init_field m r f Hr Hf) as (o & Ho & Hl).
    rewrite (dict_field ba false m r f o Hr Hf Hl). simpl.
    unfold field_outcome in Ho. rewrite field_input_None in Ho by done.
    destruct (required f); [done|]. injection Ho as <-.
    clear -Hf. by each_field Hf.
  - intros k [v (f & o & Hf & -> & _)%(dict_only_fields ba false m)]; [|done].
    by exists f.
Qed.

(** X11 ([__fields_set__]): a constructed model records the fields it was
    given, by their names: a field other than the location when the input
    has its key, even with [None]; the location, as [security_scheme_in],
    when the input has [in] or [security_scheme_in]; never anything else. *)
Theorem fields_set_given m r k :
  parse_obj m = inl r →
  k ∈ __fields_set__ r ↔
  (k = "security_scheme_in" ∧ is_Some (location_input m))
  ∨ (k ≠ "security_scheme_in" ∧ k ∈ name <$> fields ∧ is_Some (m !! k)).
Proof.
  intros [_ Hr]%parse_obj_inl.
  rewrite (SecurityScheme_init_fields_set m r Hr), foldl_fields_set.
  cbn [fields_set]. split.
  - intros [?%elem_of_empty|(f & Hf & <- & Hin)]; [done|].
    each_field Hf; first
      [ left; split; [done|]; by rewrite <- location_outcome_input
      | right; split; [done|]; split;
        [apply (bool_decide_unpack _); by vm_compute
        |by rewrite field_input_plain in Hin] ].
  - intros [[-> Hin]|(Hne & (f & Hf & <-)%field_of_name & Hin)]; right.
    + exists (with_alias "in" (optional_field "security_scheme_in" Str)).
      split; [unfold fields; repeat constructor|]. split; [done|].
      by rewrite location_outcome_input.
    + exists f. split; [done|]. split; [done|].
      each_field Hf; try done; by rewrite field_input_plain.
Qed.

Section WireForm.

Context {lawful : Lawful}.

Lemma validated_wire_value f v o :
  f ∈ fields → validate_singleton (type_ f) v = inl o →
  wire_value (type_ f) (jsonable true true o).
Proof.
  intros Hf. each_field Hf; simpl.
  1-6: destruct (str_validator v); intros [= <-]; by eexists.
  - destruct (OAuthFlows_validate v) as [fl|] eqn:Hv; intros [= <-].
    apply OAuthFlows_validate_init in Hv as [d Hd].
    exists (OAuthFlows_dict true true fl), fl. repeat split.
    by apply (OAuthFlows_init_dict true true d).
  - unfold AnyUrl_validate. destruct (str_validator v) as [s|]; [|done].
    destruct (AnyUrl_parse s) as [u|] eqn:Hs; intros [= <-]; simpl.
    + left. exists (AnyUrl_str u), u. repeat split.
      by apply (AnyUrl_parse_str s).
    + right. rewrite Hs. split; by eexists.
Qed.

(** X10 (what is serialized is in wire form): the serialized mapping of a
    constructed model is in wire form: it has a [type], wire names only, and
    values in the form they are written in; so it is accepted and serialized
    to itself again. *)
Theorem serialize_canonical m r :
  parse_obj m = inl r → canonical (serialize r).
Proof.
  intros [_ Hr]%parse_obj_inl. split; [|split].
  - destruct (SecurityScheme_init_field m r (required_field "type" Str) Hr)
      as (o & Ho & Hl); [unfold fields; repeat constructor|].
    pose proof (serialize_field m r _ o Hr
                  ltac:(unfold fields; repeat constructor) Hl) as Hs.
    simpl in Hs. rewrite Hs. unfold field_outcome in Ho.
    destruct (field_input _ m _).1 as [v|]; [|done].
    destruct (validate _ v) as [o'|] eqn:Hv; [|done]. injection Ho as ->.
    destruct (validate_Str _ _ _ Hv eq_refl) as [[-> _]|(_ & s & _ & ->)];
      [discriminate Hv|].
    by eexists.
  - intros k [v (f & o & Hf & -> & _)%(serialize_only_fields m)]; [|done].
    by apply list_elem_of_fmap_2.
  - intros f v Hf Hv.
    destruct (SecurityScheme_init_field m r f Hr Hf) as (o & Ho & Hl).
    rewrite (serialize_field m r f o Hr Hf Hl) in Hv.
    destruct (is_None o) eqn:Hn; [done|]. injection Hv as <-.
    unfold field_outcome in Ho. destruct (field_input Config m f).1 as [v|].
    + destruct (validate f v) as [o'|] eqn:Hval; [|done]. injection Ho as ->.
      apply validate_not_None in Hval as [_ Hval]; [|done].
      by eapply validated_wire_value.
    + destruct (required f); [done|]. injection Ho as <-.
      clear -Hf Hn. by each_field Hf.
Qed.

(** X13 (round trip through any [dict()]): whatever [by_alias] and
    [exclude_none] are, a constructed model is constructed again from its
    own [dict()], equal to itself; in particular from the plain [dict()],
    which has the field names as keys and [None] for what is unset. *)
Theorem round_trip_any_dict ba en m r :
  parse_obj m = inl r →
  ∃ r', parse_obj (dict fields ba en r) = inl r' ∧ model_eq r' r.
Proof. apply parse_obj_dict_round_trip. Qed.

End WireForm.

End Properties.

(** * The reference instance *)

Lemma reference_lawful : @Lawful Reference.collaborators.
Proof.
  split; simpl.
  - intros s u. unfold Reference.parse.
    destruct (Reference.scheme_and_rest s 0) eqn:Hs; intros [= <-].
    by rewrite Hs.
  - done.
Qed.

(** The end-to-end scenarios of the spec. *)
Example scenario_http_basic :
  Reference.wire_of example_http_basic = Some example_http_basic.
Proof. reflexivity. Qed.

Example scenario_apiKey :
  Reference.wire_of example_apiKey = Some example_apiKey.
Proof. reflexivity. Qed.

Example scenario_no_type :
  parse_obj (collab := Reference.collaborators) {[ "scheme" := PyStr "basic" ]}
  = inr (ValidationError [mkError MissingError "type"]).
Proof. reflexivity. Qed.

Example scenario_relative_path :
  getattr (Reference.model_of example_relative_path) "openIdConnectUrl"
  = Some (Data (PyStr "openIdConnect"))
  ∧ Reference.wire_of example_relative_path = Some example_relative_path.
Proof. split; reflexivity. Qed.

(** Every example of [schema_extra] is accepted and serialized to itself. *)
Example examples_round_trip : Forall (λ m, Reference.wire_of m = Some m) examples.
Proof. repeat constructor. Qed.

(** Iterating over a [str] yields characters, not bytes: [dict(["é"])]
    raises, the one character being no pair, and [dict(["éa"])] is the
    mapping of [é] to [a]. *)
Example two_items_characters :
  two_items (PyStr "é") = None
  ∧ two_items (PyStr "éa") = Some (PyStr "é", PyStr "a")
  ∧ two_items (PyStr "ab") = Some (PyStr "a", PyStr "b")
  ∧ two_items (PyStr "abc") = None.
Proof. repeat split. Qed.

(** [str()] of an [int]: a number of 4300 digits is written, one of 4301
    digits is not. *)
Example int_str_limit :
  str_validator (collab := Reference.collaborators) (PyInt (10 ^ 4300 - 1))
  = inl (pretty (10 ^ 4300 - 1)%Z)
  ∧ str_validator (collab := Reference.collaborators) (PyInt (10 ^ 4300))
    = inr IntMaxStrDigitsError
  ∧ str_validator (collab := Reference.collaborators) (PyInt (- 10 ^ 4300))
    = inr IntMaxStrDigitsError
  ∧ str_validator (collab := Reference.collaborators) (PyInt (-42)) = inl "-42".
Proof.
  split; [|split; [|split]]; [| | |reflexivity].
  - apply (int_str_accepts (collab := Reference.collaborators)).
    intros [_ Hle]. revert Hle. apply Z.lt_nge, Z.ltb_lt. by vm_compute.
  - apply (int_str_refuses (collab := Reference.collaborators)).
    split; [done|]. apply Z.leb_le. by vm_compute.
  - apply (int_str_refuses (collab := Reference.collaborators)).
    split; [done|]. apply Z.leb_le. by vm_compute.
Qed.

Lemma accepted_model_of m :
  Reference.accepted m = true →
  parse_obj (collab := Reference.collaborators) m = inl (Reference.model_of m).
Proof.
  unfold Reference.accepted, Reference.model_of.
  by destruct (parse_obj m).
Qed.

(** * Instances of the theorems, and counterexamples *)

#[local] Existing Instance Reference.collaborators.

(** [round_trip] at the second example of [schema_extra]. *)
Lemma round_trip_witness :
  parse_obj example_apiKey = inl (Reference.model_of example_apiKey)
  ∧ ∃ r', parse_obj (serialize (Reference.model_of example_apiKey)) = inl r'
          ∧ model_eq r' (Reference.model_of example_apiKey)
          ∧ serialize r' = serialize (Reference.model_of example_apiKey).
Proof.
  assert (parse_obj example_apiKey = inl (Reference.model_of example_apiKey)) as Hm
    by (apply accepted_model_of; vm_compute; reflexivity).
  split; [exact Hm|].
  exact (round_trip (lawful := reference_lawful) example_apiKey _ Hm).
Defined.

(** C2 as stated fails: [{"scheme": "basic", "__pydantic_self__": 1}] has
    no [type], and what construction raises is a [TypeError], not a
    [ValidationError] with a missing field. *)
Lemma missing_type_TypeError :
  ({[ "scheme" := PyStr "basic"; "__pydantic_self__" := PyInt 1 ]}
     : gmap string pyvalue) !! "type" = None
  ∧ parse_obj {[ "scheme" := PyStr "basic"; "__pydantic_self__" := PyInt 1 ]}
    = inr TypeError
  ∧ ¬ ∃ es, parse_obj {[ "scheme" := PyStr "basic"; "__pydantic_self__" := PyInt 1 ]}
            = inr (ValidationError es)
            ∧ mkError MissingError "type" ∈ es.
Proof.
  split; [reflexivity|]. split; [reflexivity|].
  intros (es & Hes & _). discriminate Hes.
Qed.

(** [missing_type_fails] at the mapping of the third scenario of the spec. *)
Lemma missing_type_fails_witness :
  ({[ "scheme" := PyStr "basic" ]} : gmap string pyvalue) !! "type" = None
  ∧ (∀ r, parse_obj {[ "scheme" := PyStr "basic" ]} ≠ inl r)
  ∧ (({[ "scheme" := PyStr "basic" ]} : gmap string pyvalue)
       !! "__pydantic_self__" = None →
     ∃ es, parse_obj {[ "scheme" := PyStr "basic" ]} = inr (ValidationError es)
           ∧ mkError MissingError "type" ∈ es)
  ∧ (is_Some (({[ "scheme" := PyStr "basic" ]} : gmap string pyvalue)
                !! "__pydantic_self__") →
     parse_obj {[ "scheme" := PyStr "basic" ]} = inr TypeError).
Proof.
  split; [reflexivity|].
  apply (missing_type_fails {[ "scheme" := PyStr "basic" ]}). reflexivity.
Defined.


(** [openIdConnectUrl_url_or_text] at the reference instance, for which
    [https://example.com/openIdConnect] is a URL and [openIdConnect] is
    not. *)
Lemma openIdConnectUrl_url_or_text_witness :
  AnyUrl_parse "https://example.com/openIdConnect"
  = Some (Reference.url_of "https://example.com/openIdConnect")
  ∧ AnyUrl_str (Reference.url_of "https://example.com/openIdConnect")
    = "https://example.com/openIdConnect"
  ∧ AnyUrl_parse "openIdConnect" = None
  ∧ (∀ s, ∃ r, parse_obj {[ "type" := PyStr "openIdConnect";
                             "openIdConnectUrl" := PyStr s ]} = inl r
            ∧ ((∃ u', AnyUrl_parse s = Some u'
                      ∧ getattr r "openIdConnectUrl" = Some (Url u')
                      ∧ serialize r !! "openIdConnectUrl" = Some (PyStr (AnyUrl_str u')))
               ∨ (AnyUrl_parse s = None
                  ∧ getattr r "openIdConnectUrl" = Some (Data (PyStr s))
                  ∧ serialize r !! "openIdConnectUrl" = Some (PyStr s))))
  ∧ (∀ m s es e, m !! "openIdConnectUrl" = Some (PyStr s) →
                 parse_obj m = inr (ValidationError es) → e ∈ es →
                 loc e ≠ "openIdConnectUrl")
  ∧ (∃ r, parse_obj example_openIdConnect = inl r
          ∧ getattr r "openIdConnectUrl"
            = Some (Url (Reference.url_of "https://example.com/openIdConnect"))
          ∧ serialize r !! "openIdConnectUrl"
            = Some (PyStr "https://example.com/openIdConnect"))
  ∧ (∃ r, parse_obj example_relative_path = inl r
          ∧ getattr r "openIdConnectUrl" = Some (Data (PyStr "openIdConnect"))
          ∧ serialize r !! "openIdConnectUrl" = Some (PyStr "openIdConnect")).
Proof.
  split; [reflexivity|]. split; [reflexivity|]. split; [reflexivity|].
  apply (openIdConnectUrl_url_or_text "openIdConnect"
           (Reference.url_of "https://example.com/openIdConnect")); reflexivity.
Defined.



(** C7 as stated fails: [{"type": "foo"}] is accepted, and the model holds
    the type ["foo"], which is none of the five documented values. *)
Lemma type_outside_enum :
  ∃ r, parse_obj {[ "type" := PyStr "foo" ]} = inl r
       ∧ getattr r "type" = Some (Data (PyStr "foo"))
       ∧ ¬ type_in_enum r.
Proof.
  exists (Reference.model_of {[ "type" := PyStr "foo" ]}).
  assert (getattr (Reference.model_of {[ "type" := PyStr "foo" ]}) "type"
          = Some (Data (PyStr "foo"))) as Hg by reflexivity.
  split; [apply accepted_model_of; vm_compute; reflexivity|].
  split; [exact Hg|].
  intros (s & Hs & Hin). rewrite Hg in Hs. injection Hs as <-.
  unfold type_values in Hin.
  repeat (apply elem_of_cons in Hin as [Hin|Hin]; [discriminate Hin|]).
  by apply elem_of_nil in Hin.
Qed.

(** [type_is_text] at the first example. *)
Lemma type_is_text_witness :
  parse_obj example_http_basic = inl (Reference.model_of example_http_basic)
  ∧ (∃ v s, example_http_basic !! "type" = Some v ∧ str_validator v = inl s
            ∧ getattr (Reference.model_of example_http_basic) "type"
              = Some (Data (PyStr s)))
  ∧ ∀ s, ∃ r', parse_obj {[ "type" := PyStr s ]} = inl r'
               ∧ getattr r' "type" = Some (Data (PyStr s)).
Proof.
  assert (parse_obj example_http_basic = inl (Reference.model_of example_http_basic))
    as Hm by (apply accepted_model_of; vm_compute; reflexivity).
  split; [exact Hm|].
  exact (type_is_text example_http_basic _ Hm).
Defined.

(** C8 as stated fails: [{"type": "apiKey", "name": "api_key", "in":
    "body"}] is accepted, and the model holds the location ["body"], which
    is none of the three documented values. *)
Lemma location_outside_enum :
  ∃ r, parse_obj {[ "type" := PyStr "apiKey"; "name" := PyStr "api_key";
                    "in" := PyStr "body" ]} = inl r
       ∧ getattr r "security_scheme_in" = Some (Data (PyStr "body"))
       ∧ ¬ location_in_enum r.
Proof.
  set (m := {[ "type" := PyStr "apiKey"; "name" := PyStr "api_key";
               "in" := PyStr "body" ]} : gmap string pyvalue).
  exists (Reference.model_of m).
  assert (getattr (Reference.model_of m) "security_scheme_in"
          = Some (Data (PyStr "body"))) as Hg by reflexivity.
  split; [apply accepted_model_of; vm_compute; reflexivity|].
  split; [exact Hg|].
  intros Henum. destruct (Henum _ Hg eq_refl) as (s & [= <-] & Hin).
  unfold in_values in Hin.
  repeat (apply elem_of_cons in Hin as [Hin|Hin]; [discriminate Hin|]).
  by apply elem_of_nil in Hin.
Qed.

(** [location_is_text] at the second example. *)
Lemma location_is_text_witness :
  parse_obj example_apiKey = inl (Reference.model_of example_apiKey)
  ∧ (getattr (Reference.model_of example_apiKey) "security_scheme_in"
     = Some (Data PyNone)
     ∨ ∃ s, getattr (Reference.model_of example_apiKey) "security_scheme_in"
            = Some (Data (PyStr s)))
  ∧ (∀ s, example_apiKey !! "in" = Some (PyStr s) →
          getattr (Reference.model_of example_apiKey) "security_scheme_in"
          = Some (Data (PyStr s)))
  ∧ (∀ s, ∃ r', parse_obj (<["in" := PyStr s]> example_apiKey) = inl r'
                ∧ getattr r' "security_scheme_in" = Some (Data (PyStr s)))
  ∧ (∀ m' v, m' !! "in" = Some v → m' !! "__pydantic_self__" = None →
       (∀ e, v ≠ PyNone → str_validator v = inr e →
          ∃ es, parse_obj m' = inr (ValidationError es) ∧ mkError e "in" ∈ es)
       ∧ (∀ es e, parse_obj m' = inr (ValidationError es) → e ∈ es →
            loc e = "in" → v ≠ PyNone ∧ str_validator v = inr (exc e)))
  ∧ (∀ v, v ≠ PyNone →
          (∃ e, str_validator v = inr e) ↔
          match v with
          | PyList _ | PyDict _ => True
          | PyInt z =>
              (0 < int_max_str_digits ∧ 10 ^ int_max_str_digits ≤ Z.abs z)%Z
          | _ => False
          end).
Proof.
  assert (parse_obj example_apiKey = inl (Reference.model_of example_apiKey))
    as Hm by (apply accepted_model_of; vm_compute; reflexivity).
  split; [exact Hm|].
  exact (location_is_text example_apiKey _ Hm).
Defined.

(** C9 as stated fails: [{"type": "oauth2", "flows": None}] is accepted,
    [flows] being [Optional]; and so is [{"type": "oauth2", "flows": ""}]
    when the nested model accepts an empty mapping, the empty string being
    an empty iterable for [dict(value)]. *)
Lemma flows_scalar_accepted :
  (({[ "type" := PyStr "oauth2"; "flows" := PyNone ]} : gmap string pyvalue)
     !! "flows" = Some PyNone
   ∧ ∃ r, parse_obj {[ "type" := PyStr "oauth2"; "flows" := PyNone ]} = inl r
          ∧ getattr r "flows" = Some (Data PyNone))
  ∧ (({[ "type" := PyStr "oauth2"; "flows" := PyStr "" ]} : gmap string pyvalue)
       !! "flows" = Some (PyStr "")
     ∧ ∃ r, parse_obj {[ "type" := PyStr "oauth2"; "flows" := PyStr "" ]} = inl r
            ∧ getattr r "flows" = Some (Model (Reference.flows_of []))).
Proof.
  split; (split; [reflexivity|]).
  - exists (Reference.model_of {[ "type" := PyStr "oauth2"; "flows" := PyNone ]}).
    split; [apply accepted_model_of; vm_compute; reflexivity|reflexivity].
  - exists (Reference.model_of {[ "type" := PyStr "oauth2"; "flows" := PyStr "" ]}).
    split; [apply accepted_model_of; vm_compute; reflexivity|reflexivity].
Qed.

(** [flows_scalar_fails] at [{"type": "oauth2", "flows": 3}]. *)
Lemma flows_scalar_fails_witness :
  ({[ "type" := PyStr "oauth2"; "flows" := PyInt 3 ]} : gmap string pyvalue)
    !! "flows" = Some (PyInt 3)
  ∧ (True →
     (∀ r, parse_obj {[ "type" := PyStr "oauth2"; "flows" := PyInt 3 ]} ≠ inl r)
     ∧ (({[ "type" := PyStr "oauth2"; "flows" := PyInt 3 ]} : gmap string pyvalue)
          !! "__pydantic_self__" = None →
        ∃ es, parse_obj {[ "type" := PyStr "oauth2"; "flows" := PyInt 3 ]}
              = inr (ValidationError es)
              ∧ mkError DictError "flows" ∈ es)
     ∧ (is_Some (({[ "type" := PyStr "oauth2"; "flows" := PyInt 3 ]}
                    : gmap string pyvalue) !! "__pydantic_self__") →
        parse_obj {[ "type" := PyStr "oauth2"; "flows" := PyInt 3 ]} = inr TypeError))
  ∧ (PyInt 3 = PyNone →
     agree (parse_obj {[ "type" := PyStr "oauth2"; "flows" := PyInt 3 ]})
           (parse_obj (delete "flows" {[ "type" := PyStr "oauth2"; "flows" := PyInt 3 ]}))
     ∧ ∀ r, parse_obj {[ "type" := PyStr "oauth2"; "flows" := PyInt 3 ]} = inl r →
            getattr r "flows" = Some (Data PyNone)).
Proof.
  split; [reflexivity|].
  apply (flows_scalar_fails {[ "type" := PyStr "oauth2"; "flows" := PyInt 3 ]}
           (PyInt 3)). reflexivity.
Defined.

(** * Instances of the further theorems *)

(** [attributes_well_typed] at the second example. *)
Lemma attributes_well_typed_witness :
  parse_obj example_apiKey = inl (Reference.model_of example_apiKey)
  ∧ (∀ k, is_Some (getattr (Reference.model_of example_apiKey) k)
          ↔ k ∈ name <$> fields)
  ∧ ∀ f, f ∈ fields →
      ∃ o, getattr (Reference.model_of example_apiKey) (name f) = Some o
           ∧ well_typed f o.
Proof.
  assert (parse_obj example_apiKey = inl (Reference.model_of example_apiKey))
    as Hm by (apply accepted_model_of; vm_compute; reflexivity).
  split; [exact Hm|].
  exact (attributes_well_typed example_apiKey _ Hm).
Defined.

(** [errors_reported] at a mapping without [type] and with a list for the
    location. *)
Lemma errors_reported_witness :
  parse_obj {[ "scheme" := PyStr "basic"; "in" := PyList [] ]}
  = inr (ValidationError [mkError MissingError "type"; mkError StrError "in"])
  ∧ ({[ "scheme" := PyStr "basic"; "in" := PyList [] ]} : gmap string pyvalue)
      !! "__pydantic_self__" = None
  ∧ [mkError MissingError "type"; mkError StrError "in"] ≠ []
  ∧ (∀ e, e ∈ [mkError MissingError "type"; mkError StrError "in"] →
        loc e ∈ alias <$> fields ∧ exc e ≠ ExtraError
        ∧ (exc e = MissingError →
           loc e = "type"
           ∧ ({[ "scheme" := PyStr "basic"; "in" := PyList [] ]}
                : gmap string pyvalue) !! "type" = None))
  ∧ (∀ f v es' e', f ∈ fields →
        (field_input Config {[ "scheme" := PyStr "basic"; "in" := PyList [] ]} f).1
        = Some v →
        validate f v = inr es' → e' ∈ es' →
        mkError e' (alias f) ∈ [mkError MissingError "type"; mkError StrError "in"]).
Proof.
  assert (parse_obj {[ "scheme" := PyStr "basic"; "in" := PyList [] ]}
          = inr (ValidationError [mkError MissingError "type"; mkError StrError "in"]))
    as Hm by reflexivity.
  split; [exact Hm|].
  exact (errors_reported _ _ Hm).
Defined.

(** [type_unusable] at [{"type": None}]. *)
Lemma type_unusable_witness :
  ({[ "type" := PyNone ]} : gmap string pyvalue) !! "type" = Some PyNone
  ∧ str_validator PyNone = inr StrError
  ∧ ({[ "type" := PyNone ]} : gmap string pyvalue) !! "__pydantic_self__" = None
  ∧ ∃ es, parse_obj {[ "type" := PyNone ]} = inr (ValidationError es)
          ∧ mkError NoneIsNotAllowedError "type" ∈ es
          ∧ mkError MissingError "type" ∉ es.
Proof.
  split; [reflexivity|]. split; [reflexivity|]. split; [reflexivity|].
  apply (type_unusable {[ "type" := PyNone ]} PyNone StrError); reflexivity.
Defined.

(** [text_is_stored] at a mapping that gives [name] the number 7. *)
Lemma text_is_stored_witness :
  parse_obj {[ "type" := PyStr "apiKey"; "name" := PyInt 7 ]}
  = inl (Reference.model_of {[ "type" := PyStr "apiKey"; "name" := PyInt 7 ]})
  ∧ optional_field "name" Str ∈ fields
  ∧ type_ (optional_field "name" Str) = Str
  ∧ ({[ "type" := PyStr "apiKey"; "name" := PyInt 7 ]} : gmap string pyvalue)
      !! alias (optional_field "name" Str) = Some (PyInt 7)
  ∧ str_validator (PyInt 7) = inl "7"
  ∧ getattr (Reference.model_of {[ "type" := PyStr "apiKey"; "name" := PyInt 7 ]})
            "name" = Some (Data (PyStr "7"))
  ∧ serialize (Reference.model_of {[ "type" := PyStr "apiKey"; "name" := PyInt 7 ]})
      !! "name" = Some (PyStr "7").
Proof.
  assert (parse_obj {[ "type" := PyStr "apiKey"; "name" := PyInt 7 ]}
          = inl (Reference.model_of {[ "type" := PyStr "apiKey"; "name" := PyInt 7 ]}))
    as Hm by (apply accepted_model_of; vm_compute; reflexivity).
  assert (optional_field "name" Str ∈ fields) as Hf
    by (unfold fields; repeat constructor).
  split; [exact Hm|]. split; [exact Hf|].
  split; [reflexivity|]. split; [reflexivity|]. split; [reflexivity|].
  exact (text_is_stored _ _ (optional_field "name" Str) (PyInt 7) "7"
           Hm Hf eq_refl eq_refl eq_refl).
Defined.

(** [null_is_absent] at a mapping that gives [scheme] the value [None]. *)
Lemma null_is_absent_witness :
  optional_field "scheme" Str ∈ fields
  ∧ required (optional_field "scheme" Str) = false
  ∧ ({[ "type" := PyStr "http"; "scheme" := PyNone ]} : gmap string pyvalue)
      !! alias (optional_field "scheme" Str) = Some PyNone
  ∧ (alt_alias (optional_field "scheme" Str) = true →
     ({[ "type" := PyStr "http"; "scheme" := PyNone ]} : gmap string pyvalue)
       !! name (optional_field "scheme" Str) = None)
  ∧ agree (parse_obj {[ "type" := PyStr "http"; "scheme" := PyNone ]})
          (parse_obj (delete "scheme" {[ "type" := PyStr "http"; "scheme" := PyNone ]})).
Proof.
  assert (optional_field "scheme" Str ∈ fields) as Hf
    by (unfold fields; repeat constructor).
  split; [exact Hf|]. split; [reflexivity|]. split; [reflexivity|].
  split; [discriminate|].
  apply (null_is_absent {[ "type" := PyStr "http"; "scheme" := PyNone ]}
           (optional_field "scheme" Str) Hf); [reflexivity|reflexivity|discriminate].
Defined.

(** [in_takes_precedence] at the second example with a value under
    [security_scheme_in] added. *)
Lemma in_takes_precedence_witness :
  (<["security_scheme_in" := PyStr "query"]> example_apiKey) !! "in"
  = Some (PyStr "header")
  ∧ parse_obj (delete "security_scheme_in"
                 (<["security_scheme_in" := PyStr "query"]> example_apiKey))
    = parse_obj (<["security_scheme_in" := PyStr "query"]> example_apiKey).
Proof.
  split; [reflexivity|].
  apply (in_takes_precedence _ (PyStr "header")). reflexivity.
Defined.


Lemma canonical_http_basic : canonical example_http_basic.
Proof.
  unfold canonical, example_http_basic. split; [by eexists|]. split.
  - intros k [v Hk]. apply lookup_insert_Some in Hk as [[<- _]|[_ Hk]].
    + unfold fields. rewrite !fmap_cons. repeat constructor.
    + apply lookup_singleton_Some in Hk as [<- _].
      unfold fields. rewrite !fmap_cons. repeat constructor.
  - intros f v Hf Hv. unfold fields in Hf.
    repeat (apply elem_of_cons in Hf as [->|Hf]);
      [..|by apply elem_of_nil in Hf];
      vm_compute in Hv; try discriminate Hv;
      injection Hv as <-; by eexists.
Qed.

(** [canonical_fixed] at the first example. *)
Lemma canonical_fixed_witness :
  canonical example_http_basic
  ∧ ∃ r, parse_obj example_http_basic = inl r ∧ serialize r = example_http_basic.
Proof.
  split; [exact canonical_http_basic|].
  exact (canonical_fixed example_http_basic canonical_http_basic).
Defined.

(** [serialize_canonical] at the second example. *)
Lemma serialize_canonical_witness :
  parse_obj example_apiKey = inl (Reference.model_of example_apiKey)
  ∧ canonical (serialize (Reference.model_of example_apiKey)).
Proof.
  assert (parse_obj example_apiKey = inl (Reference.model_of example_apiKey))
    as Hm by (apply accepted_model_of; vm_compute; reflexivity).
  split; [exact Hm|].
  exact (serialize_canonical (lawful := reference_lawful) example_apiKey _ Hm).
Defined.

(** [fields_set_given] at the second example and the location. *)
Lemma fields_set_given_witness :
  parse_obj example_apiKey = inl (Reference.model_of example_apiKey)
  ∧ ("security_scheme_in" ∈ __fields_set__ (Reference.model_of example_apiKey) ↔
     ("security_scheme_in" = "security_scheme_in"
      ∧ is_Some (location_input example_apiKey))
     ∨ ("security_scheme_in" ≠ "security_scheme_in"
        ∧ "security_scheme_in" ∈ name <$> fields
        ∧ is_Some (example_apiKey !! "security_scheme_in"))).
Proof.
  assert (parse_obj example_apiKey = inl (Reference.model_of example_apiKey))
    as Hm by (apply accepted_model_of; vm_compute; reflexivity).
  split; [exact Hm|].
  exact (fields_set_given example_apiKey _ "security_scheme_in" Hm).
Defined.

(** [dict_writes_every_field] at the first example, with [by_alias]. *)
Lemma dict_writes_every_field_witness :
  parse_obj example_http_basic = inl (Reference.model_of example_http_basic)
  ∧ (∀ f, f ∈ fields →
       ∃ o, getattr (Reference.model_of example_http_basic) (name f) = Some o
            ∧ dict fields true false (Reference.model_of example_http_basic)
                !! alias f = Some (jsonable true false o))
  ∧ (∀ f, f ∈ fields → example_http_basic !! alias f = None →
          example_http_basic !! name f = None →
          dict fields true false (Reference.model_of example_http_basic)
            !! alias f = Some PyNone)
  ∧ (∀ k, is_Some (dict fields true false (Reference.model_of example_http_basic) !! k) →
          ∃ f, f ∈ fields ∧ k = alias f).
Proof.
  assert (parse_obj example_http_basic = inl (Reference.model_of example_http_basic))
    as Hm by (apply accepted_model_of; vm_compute; reflexivity).
  split; [exact Hm|].
  exact (dict_writes_every_field true example_http_basic _ Hm).
Defined.

(** [round_trip_any_dict] at the second example and the plain [dict()]. *)
Lemma round_trip_any_dict_witness :
  parse_obj example_apiKey = inl (Reference.model_of example_apiKey)
  ∧ ∃ r', parse_obj (dict fields false false (Reference.model_of example_apiKey))
          = inl r'
          ∧ model_eq r' (Reference.model_of example_apiKey).
Proof.
  assert (parse_obj example_apiKey = inl (Reference.model_of example_apiKey))
    as Hm by (apply accepted_model_of; vm_compute; reflexivity).
  split; [exact Hm|].
  exact (round_trip_any_dict (lawful := reference_lawful) false false
           example_apiKey _ Hm).
Defined.

(** [examples_fixed] at the reference instance, whose nested model keeps
    the mapping it is given. *)
Lemma examples_fixed_witness :
  example_oauth2 !! "flows"
  = Some (PyDict (OAuthFlows_dict true true (Reference.flows_of example_oauth2_flows)))
  ∧ OAuthFlows_init (OAuthFlows_dict true true (Reference.flows_of example_oauth2_flows))
    = Some (Reference.flows_of example_oauth2_flows)
  ∧ AnyUrl_parse "https://example.com/openIdConnect"
    = Some (Reference.url_of "https://example.com/openIdConnect")
  ∧ AnyUrl_str (Reference.url_of "https://example.com/openIdConnect")
    = "https://example.com/openIdConnect"
  ∧ AnyUrl_parse "openIdConnect" = None
  ∧ Forall (λ m, ∃ r, parse_obj m = inl r ∧ serialize r = m) examples.
Proof.
  split; [reflexivity|]. split; [reflexivity|]. split; [reflexivity|].
  split; [reflexivity|]. split; [reflexivity|].
  apply (examples_fixed (Reference.flows_of example_oauth2_flows)
           (Reference.url_of "https://example.com/openIdConnect")); reflexivity.
Defined.
